(** * News reader screen: TTL cache and feed controller

    A shallow embedding of the news-reading screen (the component
    [NewsReaderScreen] with its module-level [SimpleCache] instance):

    - [SimpleCache] is a [Map] from string keys to [{data; timestamp}]
      records; it is modelled as a [gmap string (Entry A)], and every
      method is a function from the map to a result and the new map.
      Each [Date.now()] is an explicit argument [now] (milliseconds).
    - The component's [useState] cells are the record [Screen].
    - Every [async] handler is cut at its single [await]: the part
      before it ([_call]) and the continuation ([_resume]), which
      receives the outcome of the network request.  The event loop that
      interleaves them is the step function [step] on [Sys].
    - A handler that reads state reads the constants of the render
      that created it: [Sys] keeps the state the last render showed
      beside the current one, and a re-render is a turn of its own.

    Beside the news reader, the file embeds the authentication context
    with the login form and the navigator's first screen ([AuthContext],
    [handleLogin], [RootNavigator]), the naming of the expense
    tracker's backup files, and the paging requests of the product
    list ([ProductList]). *)

From Stdlib Require Import ZArith String Ascii List Bool Lia.
From Stdlib Require Import DecimalString DecimalNat.
From stdpp Require Import base option gmap strings list fin_maps.

Import ListNotations.
Local Open Scope string_scope.
Local Open Scope Z_scope.

(** ** Constants *)

(** [const CACHE_DURATION = 5 * 60 * 1000] *)
Definition CACHE_DURATION : Z := 5 * 60 * 1000.

(** [const PAGE_SIZE = 20] *)
Definition PAGE_SIZE : nat := 20.

(** ** The in-memory cache, [class SimpleCache] *)

Module SimpleCache.
Section Methods.
Context {A : Type}.

(** An element of [Map<string, { data: any; timestamp: number }>]. *)
Record Entry := mkEntry { data : A; timestamp : Z }.

(** [set(key, data)]: [this.cache.set(key, {data, timestamp: Date.now()})]. *)
Definition set (now : Z) (key : string) (d : A)
    (cache : gmap string Entry) : unit * gmap string Entry :=
  (tt, <[key := mkEntry d now]> cache).

(** [get(key)]: [null] when there is no entry; when the entry's age
    exceeds [CACHE_DURATION] it is deleted and [null] is returned;
    otherwise the stored data. *)
Definition get (now : Z) (key : string)
    (cache : gmap string Entry) : option A * gmap string Entry :=
  match cache !! key with
  | None => (None, cache)
  | Some cached =>
      let age := now - timestamp cached in
      if CACHE_DURATION <? age
      then (None, delete key cache)
      else (Some (data cached), cache)
  end.

(** [clear()] *)
Definition clear (cache : gmap string Entry) : unit * gmap string Entry :=
  (tt, ∅).

(** [has(key)]: [false] without an entry, else [age <= CACHE_DURATION]. *)
Definition has (now : Z) (key : string)
    (cache : gmap string Entry) : bool * gmap string Entry :=
  match cache !! key with
  | None => (false, cache)
  | Some cached =>
      let age := now - timestamp cached in
      (age <=? CACHE_DURATION, cache)
  end.
End Methods.
Arguments Entry : clear implicits.
End SimpleCache.

(** ** Articles *)

Record Source := mkSource { name : string }.

(** [type Article].  The JSON the service sends may carry [null] for
    [title] and [description] (this is what the filter in [fetchNews]
    looks for), so these two fields are [option string]. *)
Record Article := mkArticle {
  title : option string;
  description : option string;
  url : string;
  urlToImage : option string;
  publishedAt : string;
  source : Source;
  author : option string
}.

(** The state of the module-level [newsCache]. *)
Abbreviation Cache := (gmap string (SimpleCache.Entry (list Article))).

(** JavaScript truthiness of a nullable string. *)
Definition truthy (s : option string) : bool :=
  match s with
  | None => false
  | Some s => negb (String.eqb s "")
  end.

(** [s !== '[Removed]'] *)
Definition not_removed (s : option string) : bool :=
  match s with
  | None => true
  | Some s => negb (String.eqb s "[Removed]")
  end.

(** The predicate of [data.articles.filter(...)] in [fetchNews]. *)
Definition valid_article (a : Article) : bool :=
  truthy (title a) && truthy (description a)
  && not_removed (title a) && not_removed (description a).

Definition filter_valid (l : list Article) : list Article :=
  List.filter valid_article l.

(** ** The network *)

(** What a request to the feed service ends with, as [fetchNews] sees it
    inside its [try]: either something was thrown ([fetch] or
    [response.json()] rejected, or reading the payload raised), with the
    thrown value's [message], or a JSON envelope was received. *)
Inductive NetOutcome :=
  | Threw (message : option string)
  | Json (status : string) (message : option string) (articles : list Article).

(** [a || d] on a nullable string and a string literal. *)
Definition or_else (a : option string) (d : string) : string :=
  match a with
  | Some s => if truthy a then s else d
  | None => d
  end.

(** ** Component state: the [useState] cells of [NewsReaderScreen] *)

Record Screen := mkScreen {
  articles : list Article;
  loading : bool;
  refreshing : bool;
  loadingMore : bool;
  page : Z;
  hasMore : bool;
  error : option string
}.

(** The initial values given to [useState]. *)
Definition initial_screen : Screen :=
  {| articles := []; loading := false; refreshing := false;
     loadingMore := false; page := 1; hasMore := true; error := None |}.

Definition setArticles (v : list Article) (s : Screen) : Screen :=
  {| articles := v; loading := loading s; refreshing := refreshing s;
     loadingMore := loadingMore s; page := page s; hasMore := hasMore s;
     error := error s |}.

Definition setLoading (v : bool) (s : Screen) : Screen :=
  {| articles := articles s; loading := v; refreshing := refreshing s;
     loadingMore := loadingMore s; page := page s; hasMore := hasMore s;
     error := error s |}.

Definition setRefreshing (v : bool) (s : Screen) : Screen :=
  {| articles := articles s; loading := loading s; refreshing := v;
     loadingMore := loadingMore s; page := page s; hasMore := hasMore s;
     error := error s |}.

Definition setLoadingMore (v : bool) (s : Screen) : Screen :=
  {| articles := articles s; loading := loading s; refreshing := refreshing s;
     loadingMore := v; page := page s; hasMore := hasMore s;
     error := error s |}.

Definition setPage (v : Z) (s : Screen) : Screen :=
  {| articles := articles s; loading := loading s; refreshing := refreshing s;
     loadingMore := loadingMore s; page := v; hasMore := hasMore s;
     error := error s |}.

Definition setHasMore (v : bool) (s : Screen) : Screen :=
  {| articles := articles s; loading := loading s; refreshing := refreshing s;
     loadingMore := loadingMore s; page := page s; hasMore := v;
     error := error s |}.

Definition setError (v : option string) (s : Screen) : Screen :=
  {| articles := articles s; loading := loading s; refreshing := refreshing s;
     loadingMore := loadingMore s; page := page s; hasMore := hasMore s;
     error := v |}.

(** The calls of [Alert.alert(title, message)], oldest first. *)
Abbreviation Alerts := (list (string * string)).

(** ** Cache helpers of the component *)

(** [isCacheValid = () => newsCache.has('articles')] *)
Definition isCacheValid (now : Z) (c : Cache) : bool * Cache :=
  SimpleCache.has now "articles" c.

(** [loadFromCache = () => newsCache.get('articles') || []] *)
Definition loadFromCache (now : Z) (c : Cache) : list Article * Cache :=
  let '(r, c) := SimpleCache.get now "articles" c in
  (match r with Some l => l | None => [] end, c).

(** [saveToCache = (articlesToCache) => newsCache.set('articles', ...)] *)
Definition saveToCache (now : Z) (articlesToCache : list Article)
    (c : Cache) : unit * Cache :=
  SimpleCache.set now "articles" articlesToCache c.

(** ** [fetchNews(pageNum, isRefresh)]

    The part after the [await]s: [net] is what the request ended with.
    [inl msg] is a rejection with [new Error(msg)], [inr l] a
    resolution with the filtered page. *)
Definition fetchNews (pageNum : Z) (isRefresh : bool) (net : NetOutcome)
    (now : Z) (c : Cache) : (string + list Article) * Cache :=
  match net with
  | Threw m => (inl (or_else m "Network error occurred"), c)
  | Json status message arts =>
      if negb (String.eqb status "ok")
      then (inl (or_else (Some (or_else message "Failed to fetch news"))
                         "Network error occurred"), c)
      else
        let validArticles := filter_valid arts in
        let c := if (pageNum =? 1) && isRefresh
                 then snd (saveToCache now validArticles c) else c in
        (inr validArticles, c)
  end.

(** ** [loadInitialData] *)

(** Up to the [await]: the third component tells whether
    [fetchNews(1, true)] was issued.  [t_has] and [t_get] are the clock
    readings of [has] and of [get]. *)
Definition loadInitialData_call (t_has t_get : Z) (s : Screen) (c : Cache)
    : Screen * Cache * bool :=
  let s := setError None (setLoading true s) in
  let '(cacheValid, c) := isCacheValid t_has c in
  if cacheValid then
    let '(cachedArticles, c) := loadFromCache t_get c in
    if (0 <? length cachedArticles)%nat
    then (setLoading false (setPage 2 (setArticles cachedArticles s)), c, false)
    else (s, c, true)
  else (s, c, true).

(** From the [await] on, with the [catch] and [finally] blocks. *)
Definition loadInitialData_resume (net : NetOutcome) (now : Z)
    (s : Screen) (c : Cache) : Screen * Cache :=
  match fetchNews 1 true net now c with
  | (inr freshArticles, c) =>
      let s := setArticles freshArticles s in
      let s := setPage 2 s in
      let s := setHasMore (length freshArticles =? PAGE_SIZE)%nat s in
      (setLoading false s, c)
  | (inl msg, c) =>
      let s := setError (Some msg) s in
      let '(cachedArticles, c) := loadFromCache now c in
      let s := if (0 <? length cachedArticles)%nat
               then setError (Some "Showing cached articles (offline mode)")
                             (setArticles cachedArticles s)
               else s in
      (setLoading false s, c)
  end.

(** ** [onRefresh] *)

Definition onRefresh_call (s : Screen) : Screen :=
  setError None (setRefreshing true s).

Definition onRefresh_resume (net : NetOutcome) (now : Z)
    (s : Screen) (c : Cache) (al : Alerts) : Screen * Cache * Alerts :=
  match fetchNews 1 true net now c with
  | (inr freshArticles, c) =>
      let s := setArticles freshArticles s in
      let s := setPage 2 s in
      let s := setHasMore (length freshArticles =? PAGE_SIZE)%nat s in
      (setRefreshing false s, c, al)
  | (inl msg, c) =>
      let s := setError (Some msg) s in
      (setRefreshing false s, c, (al ++ [("Refresh Failed", msg)])%list)
  end.

(** ** [loadMore] *)

(** Up to the [await]: [Some pg] when [fetchNews(pg)] was issued.
    [loadMore] is created anew by every render and reads [loadingMore],
    [hasMore] and [page] as constants of that render: [snap] is the
    state the render showed, [cur] the state the setter acts on. *)
Definition loadMore_call (snap cur : Screen) : Screen * option Z :=
  if loadingMore snap || negb (hasMore snap) then (cur, None)
  else (setLoadingMore true cur, Some (page snap)).

(** From the [await] on; [pageNum] is the argument [fetchNews] was
    called with ([isRefresh] took its default, [false]). *)
Definition loadMore_resume (pageNum : Z) (net : NetOutcome) (now : Z)
    (s : Screen) (c : Cache) (al : Alerts) : Screen * Cache * Alerts :=
  match fetchNews pageNum false net now c with
  | (inr moreArticles, c) =>
      let s := if (length moreArticles =? 0)%nat
               then setHasMore false s
               else
                 let s := setArticles (articles s ++ moreArticles)%list s in
                 let s := setPage (page s + 1) s in
                 setHasMore (length moreArticles =? PAGE_SIZE)%nat s in
      (setLoadingMore false s, c, al)
  | (inl _, c) =>
      (setLoadingMore false s, c,
       (al ++ [("Error", "Failed to load more articles")])%list)
  end.

(** ** [openArticle]

    [Linking.openURL(url).catch(...)]: when the promise settles, a
    rejection raises an alert; the component state is not involved. *)
Definition openArticle_settle (ok : bool) (al : Alerts) : Alerts :=
  if ok then al else (al ++ [("Error", "Could not open article")])%list.

(** ** The event loop

    A handler suspended at its [await] is a [Pending] request; it will
    be resumed with the request's outcome.  Several may be pending at
    once, and they resume in any order. *)

Inductive Pending :=
  | PInit                  (* [loadInitialData], at [fetchNews(1, true)] *)
  | PRefresh               (* [onRefresh], at [fetchNews(1, true)] *)
  | PMore (pageNum : Z).   (* [loadMore], at [fetchNews(page)] *)

Definition pending_eqb (p q : Pending) : bool :=
  match p, q with
  | PInit, PInit => true
  | PRefresh, PRefresh => true
  | PMore a, PMore b => a =? b
  | _, _ => false
  end.

Definition is_more (p : Pending) : bool :=
  match p with PMore _ => true | _ => false end.

(** Take one occurrence of [p] out of the pending requests. *)
Fixpoint take_pending (p : Pending) (l : list Pending) : option (list Pending) :=
  match l with
  | [] => None
  | q :: l' =>
      if pending_eqb p q then Some l'
      else match take_pending p l' with
           | Some r => Some (q :: r)
           | None => None
           end
  end.

(** Take one occurrence of [u] out of the URLs being opened. *)
Fixpoint take_opening (u : string) (l : list string) : option (list string) :=
  match l with
  | [] => None
  | v :: l' =>
      if String.eqb u v then Some l'
      else match take_opening u l' with
           | Some r => Some (v :: r)
           | None => None
           end
  end.

(** The whole program state: the state of the mounted screen, the
    state its last committed render showed ([rendered]: the handlers
    attached to the list were created by that render), the
    module-level cache, the requests of the mounted screen still in
    flight, those of screens unmounted since ([orphans]: their
    continuations still run, and still reach the cache and [Alert],
    but their state setters no longer show), the URLs [openArticle]
    is opening, and the alerts raised. *)
Record Sys := mkSys {
  screen : Screen;
  rendered : Screen;
  cache : Cache;
  inflight : list Pending;
  orphans : list Pending;
  opening : list string;
  alerts : Alerts
}.

(** Program start: nothing cached, nothing in flight. *)
Definition boot : Sys :=
  {| screen := initial_screen; rendered := initial_screen; cache := ∅;
     inflight := []; orphans := []; opening := []; alerts := [] |}.

(** The continuation of a pending request. *)
Definition resume (p : Pending) (net : NetOutcome) (now : Z)
    (s : Screen) (c : Cache) (al : Alerts) : Screen * Cache * Alerts :=
  match p with
  | PInit => let '(s, c) := loadInitialData_resume net now s c in (s, c, al)
  | PRefresh => onRefresh_resume net now s c al
  | PMore pageNum => loadMore_resume pageNum net now s c al
  end.

Inductive Event :=
  | Mount (t_has t_get : Z)       (* the screen is (re)mounted; [useEffect] runs *)
  | RefreshCall                   (* pull to refresh *)
  | LoadMoreCall                  (* [onEndReached], handler of the last render *)
  | Resolve (p : Pending) (net : NetOutcome) (now : Z)
  | OrphanResolve (p : Pending) (net : NetOutcome) (now : Z)
  | Render                        (* the screen re-renders with its current state *)
  | OpenArticle (u : string)      (* a rendered article is pressed *)
  | OpenSettled (u : string) (ok : bool).  (* [Linking.openURL(u)] settles *)

(** [true] when some article of [l] has the URL [u]. *)
Definition shows_url (l : list Article) (u : string) : bool :=
  existsb (fun a => String.eqb (url a) u) l.

(** One turn of the event loop; [None] when the event cannot happen
    (no such request is pending, no such article is on the screen).
    Re-renders are turns of their own: between a state update and the
    next [Render] the handlers on the screen are those of the older
    render. *)
Definition step (e : Event) (sys : Sys) : option Sys :=
  match e with
  | Mount t_has t_get =>
      (* the first render shows the initial state; then the effect runs *)
      let '(s, c, issued) :=
        loadInitialData_call t_has t_get initial_screen (cache sys) in
      Some {| screen := s; rendered := initial_screen; cache := c;
              inflight := if issued then [PInit] else [];
              orphans := (orphans sys ++ inflight sys)%list;
              opening := opening sys; alerts := alerts sys |}
  | RefreshCall =>
      Some {| screen := onRefresh_call (screen sys);
              rendered := rendered sys; cache := cache sys;
              inflight := (inflight sys ++ [PRefresh])%list;
              orphans := orphans sys; opening := opening sys;
              alerts := alerts sys |}
  | LoadMoreCall =>
      let '(s, issued) := loadMore_call (rendered sys) (screen sys) in
      Some {| screen := s; rendered := rendered sys; cache := cache sys;
              inflight := match issued with
                          | Some pg => (inflight sys ++ [PMore pg])%list
                          | None => inflight sys
                          end;
              orphans := orphans sys; opening := opening sys;
              alerts := alerts sys |}
  | Resolve p net now =>
      match take_pending p (inflight sys) with
      | None => None
      | Some rest =>
          let '(s, c, al) :=
            resume p net now (screen sys) (cache sys) (alerts sys) in
          Some {| screen := s; rendered := rendered sys; cache := c;
                  inflight := rest; orphans := orphans sys;
                  opening := opening sys; alerts := al |}
      end
  | OrphanResolve p net now =>
      (* the setters of an unmounted screen show nothing: the screen the
         continuation computes is dropped, its effects on the cache and
         its alerts stay *)
      match take_pending p (orphans sys) with
      | None => None
      | Some rest =>
          let '(_, c, al) :=
            resume p net now initial_screen (cache sys) (alerts sys) in
          Some {| screen := screen sys; rendered := rendered sys; cache := c;
                  inflight := inflight sys; orphans := rest;
                  opening := opening sys; alerts := al |}
      end
  | Render =>
      Some {| screen := screen sys; rendered := screen sys;
              cache := cache sys; inflight := inflight sys;
              orphans := orphans sys; opening := opening sys;
              alerts := alerts sys |}
  | OpenArticle u =>
      if shows_url (articles (rendered sys)) u
      then Some {| screen := screen sys; rendered := rendered sys;
                   cache := cache sys; inflight := inflight sys;
                   orphans := orphans sys;
                   opening := (opening sys ++ [u])%list;
                   alerts := alerts sys |}
      else None
  | OpenSettled u ok =>
      match take_opening u (opening sys) with
      | None => None
      | Some rest =>
          Some {| screen := screen sys; rendered := rendered sys;
                  cache := cache sys; inflight := inflight sys;
                  orphans := orphans sys; opening := rest;
                  alerts := openArticle_settle ok (alerts sys) |}
      end
  end.

(** Run a schedule of events. *)
Fixpoint run (evs : list Event) (sys : Sys) : option Sys :=
  match evs with
  | [] => Some sys
  | e :: evs' =>
      match step e sys with
      | Some sys' => run evs' sys'
      | None => None
      end
  end.

(** The states the program can be in. *)
Inductive reachable : Sys -> Prop :=
  | reachable_boot : reachable boot
  | reachable_step e sys sys' :
      reachable sys -> step e sys = Some sys' -> reachable sys'.

(** ** Sample data *)

Definition sample_article (t : string) : Article :=
  {| title := Some t; description := Some "Summary of the story";
     url := "https://example.org/story"; urlToImage := None;
     publishedAt := "2024-01-01T00:00:00Z";
     source := {| name := "Example" |}; author := None |}.

Definition removed_article : Article :=
  {| title := Some "[Removed]"; description := Some "[Removed]";
     url := "https://removed.com"; urlToImage := None;
     publishedAt := "2024-01-01T00:00:00Z";
     source := {| name := "[Removed]" |}; author := None |}.

Definition sample_page (n : nat) : list Article :=
  repeat (sample_article "Headline") n.

(** The state after a first mount whose request brought a full page at
    t = 1000 ms, once the screen has rendered it. *)
Definition sample_ready : Sys :=
  {| screen := setPage 2 (setArticles (sample_page 20) initial_screen);
     rendered := setPage 2 (setArticles (sample_page 20) initial_screen);
     cache := {[ "articles" := SimpleCache.mkEntry (sample_page 20) 1000 ]};
     inflight := []; orphans := []; opening := []; alerts := [] |}.

(** [sample_ready] after a load-more call: page 2 has been requested,
    the screen has not re-rendered yet. *)
Definition sample_loading_more : Sys :=
  {| screen := setLoadingMore true (screen sample_ready);
     rendered := rendered sample_ready;
     cache := cache sample_ready;
     inflight := [PMore 2]; orphans := []; opening := []; alerts := [] |}.

(** [sample_ready] after a pull to refresh. *)
Definition sample_refreshing : Sys :=
  {| screen := onRefresh_call (screen sample_ready);
     rendered := rendered sample_ready;
     cache := cache sample_ready;
     inflight := [PRefresh]; orphans := []; opening := []; alerts := [] |}.



(** ** Vocabulary of the statements *)

(** The arguments [fetchNews] was called with by the handler that is
    suspended on the request. *)
Definition request_of (p : Pending) : Z * bool :=
  match p with
  | PInit => (1, true)
  | PRefresh => (1, true)
  | PMore pageNum => (pageNum, false)
  end.

(** What the request [p], ending with [net] at time [now], makes
    [fetchNews] return against cache [c]. *)
Definition fetched (p : Pending) (net : NetOutcome) (now : Z) (c : Cache)
    : string + list Article :=
  fst (fetchNews (fst (request_of p)) (snd (request_of p)) net now c).

(** The list shown and the pagination cursor are the same in [s'] as in [s]. *)
Definition same_feed (s s' : Screen) : Prop :=
  articles s' = articles s /\ page s' = page s /\ hasMore s' = hasMore s.

(** Every payload held by the cache consists of valid articles. *)
Definition cache_valid (c : Cache) : Prop :=
  forall key e, c !! key = Some e ->
    List.Forall (fun a => valid_article a = true) (SimpleCache.data e).







(** ** What the screen renders *)

(** [{error && <View style={styles.errorBanner}>...}]: the banner is
    rendered when [error] is truthy. *)
Definition banner_shown (s : Screen) : bool := truthy (error s).

(** A number in a template literal: its decimal digits. *)
Definition decimal (n : nat) : string :=
  NilEmpty.string_of_uint (Nat.to_uint n).

(** [keyExtractor = (item, index) => `${item.url}-${index}`] *)
Definition keyExtractor (item : Article) (index : nat) : string :=
  (url item ++ "-" ++ decimal index)%string.

(** The keys [FlatList] computes for its [data]. *)
Definition list_keys (l : list Article) : list string :=
  imap (fun index item => keyExtractor item index) l.

(** ** More vocabulary *)

Definition is_init (p : Pending) : bool :=
  match p with PInit => true | _ => false end.

Definition is_refresh (p : Pending) : bool :=
  match p with PRefresh => true | _ => false end.

(** How one turn of the event loop may change the cache. *)
Inductive cache_move (c : Cache) : Cache -> Prop :=
  | cache_kept : cache_move c c
  | cache_evicted : cache_move c (delete "articles" c)
  | cache_written l now :
      List.Forall (fun a => valid_article a = true) l ->
      cache_move c (<["articles" := SimpleCache.mkEntry l now]> c).

(** Every article on the screen is valid. *)
Definition screen_valid (s : Screen) : Prop :=
  List.Forall (fun a => valid_article a = true) (articles s).

(** The spinner flags against the requests in flight. *)
Definition flags_tracked (sys : Sys) : Prop :=
  length (List.filter is_init (inflight sys))
    = (if loading (screen sys) then 1%nat else 0%nat)
  /\ (refreshing (screen sys) = true ->
      (1 <= length (List.filter is_refresh (inflight sys)))%nat).

(** Page numbers start at 1. *)
Definition pages_positive (sys : Sys) : Prop :=
  1 <= page (screen sys)
  /\ 1 <= page (rendered sys)
  /\ forall pageNum, List.In (PMore pageNum) (inflight sys) -> 1 <= pageNum.

(** ** The authentication context, [AuthProvider]

    [EncryptedStorage] is a map from keys to strings whose operations
    may reject; whether a given call succeeds is an argument ([true]:
    it resolves).  Each handler is run from start to end. *)

Module AuthContext.

(** The [useState] cells of [AuthProvider]. *)
Record State := mkState { token : option string; loading : bool }.

(** [useState(null)], [useState(true)] *)
Definition initial : State := {| token := None; loading := true |}.

Definition setToken (v : option string) (a : State) : State :=
  {| token := v; loading := loading a |}.

Definition setLoading (v : bool) (a : State) : State :=
  {| token := token a; loading := v |}.

(** [storeToken]: the rejection of [setItem] is caught and logged. *)
Definition storeToken (ok : bool) (tok : string)
    (st : gmap string string) : gmap string string :=
  if ok then <["jwt_token" := tok]> st else st.

(** [loadToken], the body of each of the two mount effects. *)
Definition loadToken (ok : bool) (a : State) (st : gmap string string) : State :=
  let a :=
    if ok then
      let savedToken := st !! "jwt_token" in
      if truthy savedToken then setToken savedToken a else a
    else a in
  setLoading false a.

(** The provider is mounted: both effects run [loadToken]. *)
Definition mount (ok1 ok2 : bool) (st : gmap string string) : State :=
  loadToken ok2 (loadToken ok1 initial st) st.

(** [login(email, password)]: [inl msg] is a rejection with
    [new Error(msg)], rethrown by the [catch]. *)
Definition login (ok : bool) (email password : string) (a : State)
    (st : gmap string string) : (string + unit) * State * gmap string string :=
  let a := setLoading true a in
  if String.eqb email "a@g.com" && String.eqb password "123456789" then
    let fakeToken := "mocked_token_123456" in
    let st := storeToken ok fakeToken st in
    let a := setToken (Some fakeToken) a in
    (inr tt, setLoading false a, st)
  else (inl "Invalid credentials", setLoading false a, st).

(** [logout()]: when [removeItem] rejects, [setToken(null)] is skipped. *)
Definition logout (ok : bool) (a : State) (st : gmap string string)
    : State * gmap string string :=
  let a := setLoading true a in
  if ok then (setLoading false (setToken None a), delete "jwt_token" st)
  else (setLoading false a, st).

End AuthContext.

(** What [RootNavigator] puts first on the stack; [None] while
    [loading] (it returns [null]). *)
Inductive FirstScreen := HomeFirst | LoginFirst.

Definition RootNavigator (a : AuthContext.State) : option FirstScreen :=
  if AuthContext.loading a then None
  else Some (if truthy (AuthContext.token a) then HomeFirst else LoginFirst).

(** [handleLogin] of [LoginScreen], with the alerts it raises. *)
Definition handleLogin (ok : bool) (email password : string)
    (a : AuthContext.State) (st : gmap string string) (al : Alerts)
    : AuthContext.State * gmap string string * Alerts :=
  if negb (truthy (Some email)) || negb (truthy (Some password)) then
    (a, st, (al ++ [("Error", "Please enter both email and password")])%list)
  else
    match AuthContext.login ok email password a st with
    | (inr _, a, st) => (a, st, al)
    | (inl msg, a, st) =>
        (a, st,
         (al ++ [("Login Failed",
                  or_else (Some msg) "Something went wrong")])%list)
    end.

(** ** Backup files of the expense tracker *)

(** [s.endsWith(suffix)] *)
Fixpoint endsWith (s suffix : string) : bool :=
  if String.eqb s suffix then true
  else match s with
       | EmptyString => false
       | String _ s' => endsWith s' suffix
       end.

(** [s.includes(part)] *)
Fixpoint includes (s part : string) : bool :=
  if String.prefix part s then true
  else match s with
       | EmptyString => false
       | String _ s' => includes s' part
       end.

(** [`expenses_backup_${timestamp}.json`], the name [backupExpenses]
    writes to. *)
Definition backup_file_name (timestamp : string) : string :=
  ("expenses_backup_" ++ timestamp ++ ".json")%string.

(** The files [restoreExpenses] chooses from:
    [name.startsWith('expenses_backup') && name.endsWith('.json')]. *)
Definition restore_candidate (name : string) : bool :=
  String.prefix "expenses_backup" name && endsWith name ".json".

(** The files [listBackupFiles] shows:
    [name.includes('expenses_backup') && name.includes('.json')]. *)
Definition listed_backup (name : string) : bool :=
  includes name "expenses_backup" && includes name ".json".

(** ** The product list, [ProductListScreen] *)

Module ProductList.
Section Screen.
Context {Product : Type}.

(** The [useState] cells the pagination uses. *)
Record State := mkState {
  products : list Product;
  searchText : string;
  selectedCategory : string;
  page : nat;
  loading : bool;
  hasMore : bool
}.

(** [const LIMIT = 20] *)
Definition LIMIT : nat := 20.

(** The URL [fetchProducts] builds, as a function of the [skip] value. *)
Definition endpoint (selectedCategory searchText : string) (skip : nat)
    : string :=
  let url := ("https://dummyjson.com/products?limit=" ++ decimal LIMIT
              ++ "&skip=" ++ decimal skip)%string in
  let url := if truthy (Some selectedCategory)
             then ("https://dummyjson.com/products/category/"
                   ++ selectedCategory ++ "?limit=" ++ decimal LIMIT
                   ++ "&skip=" ++ decimal skip)%string
             else url in
  if truthy (Some searchText)
  then ("https://dummyjson.com/products/search?q=" ++ searchText
        ++ "&limit=" ++ decimal LIMIT ++ "&skip=" ++ decimal skip)%string
  else url.

(** What [axios.get(url)] ends with: a rejection (or a response without
    [data]), or a body whose [products] field may be missing. *)
Inductive Response :=
  | Failed
  | Body (products : option (list Product)).

(** [fetchProducts] up to the [await].  [snap] is the state the
    closure was created with (it reads [loading], [hasMore], [page],
    [selectedCategory] and [searchText] from it), [cur] the state the
    setter acts on; the second component is the URL requested. *)
Definition fetchProducts_call (snap cur : State) : State * option string :=
  if loading snap || negb (hasMore snap) then (cur, None)
  else
    ({| products := products cur; searchText := searchText cur;
        selectedCategory := selectedCategory cur; page := page cur;
        loading := true; hasMore := hasMore cur |},
     Some (endpoint (selectedCategory snap) (searchText snap)
                    (page snap * LIMIT))).

(** [fetchProducts] from the [await] on. *)
Definition fetchProducts_resume (r : Response) (cur : State) : State :=
  match r with
  | Failed =>
      {| products := products cur; searchText := searchText cur;
         selectedCategory := selectedCategory cur; page := page cur;
         loading := false; hasMore := hasMore cur |}
  | Body ps =>
      let newProducts := match ps with Some l => l | None => [] end in
      {| products := (products cur ++ newProducts)%list;
         searchText := searchText cur;
         selectedCategory := selectedCategory cur;
         page := page cur + 1;
         loading := false;
         hasMore := (length newProducts =? LIMIT)%nat |}
  end.

(** [setSearchText] / [setSelectedCategory]: the query changes, the
    rest of the state is as it was. *)
Definition setQuery (selectedCategory searchText : string) (cur : State)
    : State :=
  {| products := products cur; searchText := searchText;
     selectedCategory := selectedCategory; page := page cur;
     loading := loading cur; hasMore := hasMore cur |}.

(** The three setters of [resetAndFetch]. *)
Definition resetAndFetch (cur : State) : State :=
  {| products := []; searchText := searchText cur;
     selectedCategory := selectedCategory cur; page := 0;
     loading := loading cur; hasMore := true |}.

(** The effect of a render [snap] in which the query has changed:
    [resetAndFetch()] applies its setters and hands that render's
    [fetchProducts] to [setTimeout]; when the timer fires, it is that
    closure which runs, on the state the reset has produced. *)
Definition query_effect (snap : State) : State * option string :=
  fetchProducts_call snap (resetAndFetch snap).

End Screen.
Arguments State : clear implicits.
Arguments Response : clear implicits.
End ProductList.

(** * Properties *)

(** A turn that is a re-render or belongs to [openArticle]: it is
    enabled or not, and then changes what its record says. *)
Ltac quiet_turn H :=
  match type of H with
  | Some _ = Some _ => injection H as <-
  | match ?o with _ => _ end = Some _ =>
      destruct o; [injection H as <- | discriminate H]
  end.

(** ** The cache *)

Section CacheFacts.
Context {A : Type}.
Implicit Types (cache : gmap string (SimpleCache.Entry A)) (key : string).

Lemma get_absent now key cache :
  cache !! key = None -> SimpleCache.get now key cache = (None, cache).
Proof. intros H. unfold SimpleCache.get. now rewrite H. Qed.

Lemma get_fresh now key cache e :
  cache !! key = Some e ->
  now - SimpleCache.timestamp e <= CACHE_DURATION ->
  SimpleCache.get now key cache = (Some (SimpleCache.data e), cache).
Proof.
  intros H Hage. unfold SimpleCache.get. rewrite H. cbn zeta.
  destruct (Z.ltb_spec CACHE_DURATION (now - SimpleCache.timestamp e)); [lia | reflexivity].
Qed.

Lemma get_expired now key cache e :
  cache !! key = Some e ->
  CACHE_DURATION < now - SimpleCache.timestamp e ->
  SimpleCache.get now key cache = (None, delete key cache).
Proof.
  intros H Hage. unfold SimpleCache.get. rewrite H. cbn zeta.
  destruct (Z.ltb_spec CACHE_DURATION (now - SimpleCache.timestamp e)); [reflexivity | lia].
Qed.

Lemma has_absent now key cache :
  cache !! key = None -> SimpleCache.has now key cache = (false, cache).
Proof. intros H. unfold SimpleCache.has. now rewrite H. Qed.

Lemma has_present now key cache e :
  cache !! key = Some e ->
  SimpleCache.has now key cache
  = (now - SimpleCache.timestamp e <=? CACHE_DURATION, cache).
Proof. intros H. unfold SimpleCache.has. now rewrite H. Qed.
Lemma clear_then_absent now key cache :
  SimpleCache.get now key (snd (SimpleCache.clear cache)) = (None, ∅)
  /\ SimpleCache.has now key (snd (SimpleCache.clear cache)) = (false, ∅).
Proof.
  unfold SimpleCache.clear, SimpleCache.get, SimpleCache.has. cbn [snd].
  rewrite lookup_empty. split; reflexivity.
Qed.
End CacheFacts.

(** C5. A payload stored with [set] and read with [get] once more than
    [CACHE_DURATION] (five minutes) has passed: [get] answers [null],
    the entry is gone from the map afterwards, and a [has] after that
    answers [false].  Read at an age of at most [CACHE_DURATION], [get]
    answers the stored payload and leaves the map as it was. *)
Theorem set_get_ttl {A : Type} (cache : gmap string (SimpleCache.Entry A))
    (key : string) (payload : A) (t_set t_get t_has : Z) :
  let stored := snd (SimpleCache.set t_set key payload cache) in
  (CACHE_DURATION < t_get - t_set ->
     fst (SimpleCache.get t_get key stored) = None
     /\ snd (SimpleCache.get t_get key stored) = delete key stored
     /\ snd (SimpleCache.get t_get key stored) !! key = None
     /\ fst (SimpleCache.has t_has key (snd (SimpleCache.get t_get key stored)))
        = false)
  /\ (t_get - t_set <= CACHE_DURATION ->
        SimpleCache.get t_get key stored = (Some payload, stored)).
Proof.
  cbn zeta. unfold SimpleCache.set. cbn [snd].
  set (e := SimpleCache.mkEntry payload t_set).
  assert (Hl : <[key:=e]> cache !! key = Some e) by apply lookup_insert_eq.
  split; intros Hage.
  - rewrite (get_expired _ _ _ e Hl) by exact Hage. cbn [fst snd].
    repeat split; try reflexivity.
    + apply lookup_delete_eq.
    + rewrite has_absent; [reflexivity | apply lookup_delete_eq].
  - rewrite (get_fresh _ _ _ e Hl) by exact Hage. reflexivity.
Qed.

Lemma set_get_ttl_witness :
  let stored := snd (SimpleCache.set 1000 "articles" (sample_page 3) ∅) in
  (CACHE_DURATION < 301001 - 1000
   /\ fst (SimpleCache.get 301001 "articles" stored) = None
   /\ fst (SimpleCache.has 301002 "articles"
             (snd (SimpleCache.get 301001 "articles" stored))) = false)
  /\ (301000 - 1000 <= CACHE_DURATION
      /\ SimpleCache.get 301000 "articles" stored = (Some (sample_page 3), stored)).
Proof.
  cbn zeta.
  assert (H1 : CACHE_DURATION < 301001 - 1000) by (unfold CACHE_DURATION; lia).
  assert (H2 : 301000 - 1000 <= CACHE_DURATION) by (unfold CACHE_DURATION; lia).
  split.
  - split; [exact H1 |].
    destruct (set_get_ttl ∅ "articles" (sample_page 3) 1000 301001 301002)
      as [Hexp _].
    destruct (Hexp H1) as (Hg & _ & _ & Hh). split; assumption.
  - split; [exact H2 |].
    destruct (set_get_ttl ∅ "articles" (sample_page 3) 1000 301000 0)
      as [_ Hfresh].
    exact (Hfresh H2).
Defined.

(** C6. [has(key)] answers [true] exactly when [get(key)], run at the
    same instant on the same map, answers with a payload; and [has]
    hands the map back as it received it, expired entry or not. *)
Theorem has_iff_get_present {A : Type}
    (cache : gmap string (SimpleCache.Entry A)) (key : string) (now : Z) :
  (fst (SimpleCache.has now key cache) = true
   <-> exists d, fst (SimpleCache.get now key cache) = Some d)
  /\ snd (SimpleCache.has now key cache) = cache.
Proof.
  unfold SimpleCache.has, SimpleCache.get.
  destruct (cache !! key) as [e|]; cbn [fst snd].
  - split; [| reflexivity].
    destruct (Z.leb_spec (now - SimpleCache.timestamp e) CACHE_DURATION) as [Hle|Hgt];
      destruct (Z.ltb_spec CACHE_DURATION (now - SimpleCache.timestamp e)) as [Hlt|Hge];
      try lia; cbn [fst].
    + split; [intros _; eexists; reflexivity | reflexivity].
    + split; [discriminate | intros [d Hd]; discriminate].
  - split; [| reflexivity].
    split; [discriminate | intros [d Hd]; discriminate].
Qed.

(** ** The filter *)

Lemma valid_article_spec (a : Article) :
  valid_article a = true <->
  exists t d, title a = Some t /\ description a = Some d
              /\ t <> "" /\ d <> "" /\ t <> "[Removed]" /\ d <> "[Removed]".
Proof.
  unfold valid_article, truthy, not_removed.
  destruct (title a) as [t|], (description a) as [d|]; cbn.
  - rewrite !andb_true_iff, !negb_true_iff, !String.eqb_neq. split.
    + intros [[[Ht Hd] Ht'] Hd']. exists t, d. repeat split; assumption.
    + intros (t' & d' & [= <-] & [= <-] & Ht & Hd & Ht' & Hd').
      repeat split; assumption.
  - rewrite andb_false_r. split; [discriminate |].
    intros (t' & d' & _ & Hd & _). discriminate.
  - split; [discriminate |]. intros (t' & d' & Ht & _). discriminate.
  - split; [discriminate |]. intros (t' & d' & Ht & _). discriminate.
Qed.

Lemma filter_valid_all (l : list Article) :
  List.Forall (fun a => valid_article a = true) (filter_valid l).
Proof.
  apply List.Forall_forall. intros a Ha.
  apply List.filter_In in Ha. tauto.
Qed.

Lemma filter_valid_id (l : list Article) :
  List.Forall (fun a => valid_article a = true) l -> filter_valid l = l.
Proof.
  induction 1 as [|a l Ha _ IH]; [reflexivity |].
  unfold filter_valid in *. cbn. rewrite Ha, IH. reflexivity.
Qed.

Lemma filter_valid_length (l : list Article) :
  (length (filter_valid l) <= length l)%nat.
Proof. apply List.filter_length_le. Qed.

(** C9. Filtering a list that has already been through the validity
    filter of [fetchNews] gives the same list again. *)
Theorem filter_valid_idempotent (l : list Article) :
  filter_valid (filter_valid l) = filter_valid l.
Proof. apply filter_valid_id, filter_valid_all. Qed.

Example filter_drops_removed :
  filter_valid [removed_article; sample_article "A";
                {| title := None; description := Some "d"; url := "u";
                   urlToImage := None; publishedAt := "p";
                   source := {| name := "n" |}; author := None |};
                {| title := Some "t"; description := Some ""; url := "u";
                   urlToImage := None; publishedAt := "p";
                   source := {| name := "n" |}; author := None |}]
  = [sample_article "A"].
Proof. reflexivity. Qed.

Lemma sample_page_valid (n : nat) :
  List.Forall (fun a => valid_article a = true) (sample_page n).
Proof.
  unfold sample_page. induction n as [|n IH]; cbn; constructor; auto.
Qed.

Example sample_ready_run :
  run [Mount 0 0; Resolve PInit (Json "ok" None (sample_page 20)) 1000; Render]
      boot
  = Some sample_ready.
Proof. reflexivity. Qed.

Lemma sample_ready_reachable : reachable sample_ready.
Proof.
  apply (reachable_step Render
           {| screen := screen sample_ready; rendered := initial_screen;
              cache := cache sample_ready; inflight := []; orphans := [];
              opening := []; alerts := [] |}); [| reflexivity].
  apply (reachable_step
           (Resolve PInit (Json "ok" None (sample_page 20)) 1000)
           {| screen := setError None (setLoading true initial_screen);
              rendered := initial_screen; cache := ∅; inflight := [PInit];
              orphans := []; opening := []; alerts := [] |});
    [| reflexivity].
  apply (reachable_step (Mount 0 0) boot); [apply reachable_boot | reflexivity].
Qed.

(** ** [fetchNews] *)

Lemma fetchNews_rejected pageNum isRefresh net now (c : Cache) msg :
  fst (fetchNews pageNum isRefresh net now c) = inl msg ->
  forall pageNum' isRefresh' now' (c' : Cache),
    fetchNews pageNum' isRefresh' net now' c' = (inl msg, c').
Proof.
  unfold fetchNews. destruct net as [m | status m arts]; cbn.
  - intros [= <-]. reflexivity.
  - destruct (String.eqb status "ok"); cbn; [discriminate |].
    intros [= <-]. reflexivity.
Qed.

Lemma fetchNews_resolved pageNum isRefresh net now (c : Cache) l :
  fst (fetchNews pageNum isRefresh net now c) = inr l ->
  exists m arts,
    net = Json "ok" m arts /\ l = filter_valid arts
    /\ fetchNews pageNum isRefresh net now c
       = (inr l, if (pageNum =? 1) && isRefresh
                 then <["articles" := SimpleCache.mkEntry l now]> c else c).
Proof.
  unfold fetchNews. destruct net as [m | status m arts]; cbn; [discriminate |].
  destruct (String.eqb_spec status "ok") as [-> | Hne]; cbn; [| discriminate].
  intros [= <-]. exists m, arts. split; [reflexivity |].
  split; [reflexivity |].
  destruct ((pageNum =? 1) && isRefresh); reflexivity.
Qed.

Lemma fetchNews_ok pageNum isRefresh m arts now (c : Cache) :
  fetchNews pageNum isRefresh (Json "ok" m arts) now c
  = (inr (filter_valid arts),
     if (pageNum =? 1) && isRefresh
     then <["articles" := SimpleCache.mkEntry (filter_valid arts) now]> c
     else c).
Proof.
  unfold fetchNews. cbn. destruct ((pageNum =? 1) && isRefresh); reflexivity.
Qed.

Example fetchNews_network_error :
  fetchNews 1 true (Threw None) 0 ∅ = (inl "Network error occurred", ∅).
Proof. reflexivity. Qed.

Example fetchNews_status_error :
  fetchNews 1 true (Json "error" None []) 0 ∅ = (inl "Failed to fetch news", ∅)
  /\ fetchNews 1 true (Json "error" (Some "apiKeyInvalid") []) 0 ∅
     = (inl "apiKeyInvalid", ∅).
Proof. split; reflexivity. Qed.

Example fetchNews_caches_first_page_of_refresh_only :
  snd (fetchNews 1 true (Json "ok" None (sample_page 1)) 7 ∅) !! "articles"
    = Some (SimpleCache.mkEntry (sample_page 1) 7)
  /\ snd (fetchNews 1 false (Json "ok" None (sample_page 1)) 7 ∅) = ∅
  /\ snd (fetchNews 2 true (Json "ok" None (sample_page 1)) 7 ∅) = ∅.
Proof. repeat split; reflexivity. Qed.

(** A page that is short as received is short after the filter too. *)
Lemma short_raw_page_is_short (arts : list Article) :
  (length arts < PAGE_SIZE)%nat -> (length (filter_valid arts) < PAGE_SIZE)%nat.
Proof. intros H. pose proof (filter_valid_length arts). lia. Qed.

(** ** The cache helpers *)

Lemma loadFromCache_absent now (c : Cache) :
  c !! "articles" = None -> loadFromCache now c = ([], c).
Proof. intros H. unfold loadFromCache. now rewrite (get_absent _ _ _ H). Qed.

Lemma loadFromCache_fresh now (c : Cache) e :
  c !! "articles" = Some e ->
  now - SimpleCache.timestamp e <= CACHE_DURATION ->
  loadFromCache now c = (SimpleCache.data e, c).
Proof.
  intros H Hage. unfold loadFromCache. now rewrite (get_fresh _ _ _ _ H Hage).
Qed.

Lemma loadFromCache_expired now (c : Cache) e :
  c !! "articles" = Some e ->
  CACHE_DURATION < now - SimpleCache.timestamp e ->
  loadFromCache now c = ([], delete "articles" c).
Proof.
  intros H Hage. unfold loadFromCache. now rewrite (get_expired _ _ _ _ H Hage).
Qed.

Lemma nonempty_length {X : Type} (l : list X) :
  l <> [] -> (0 <? length l)%nat = true.
Proof. destruct l; [congruence | reflexivity]. Qed.

(** ** The initial load *)

(** The [catch] block of [loadInitialData]: the fallback reads the
    cache with the same [get] as every other read, freshness check
    included.  An entry that is fresh at that moment is shown with the
    banner 'Showing cached articles (offline mode)'; a stale one is
    evicted by [get] and nothing of it is shown. *)
Lemma loadInitialData_catch (s : Screen) (c : Cache) (net : NetOutcome)
    (now : Z) (msg : string) (e : SimpleCache.Entry (list Article)) :
  fst (fetchNews 1 true net now c) = inl msg ->
  c !! "articles" = Some e ->
  SimpleCache.data e <> [] ->
  let s' := fst (loadInitialData_resume net now s c) in
  let c' := snd (loadInitialData_resume net now s c) in
  (now - SimpleCache.timestamp e <= CACHE_DURATION ->
     articles s' = SimpleCache.data e
     /\ error s' = Some "Showing cached articles (offline mode)"
     /\ loading s' = false /\ c' = c)
  /\ (CACHE_DURATION < now - SimpleCache.timestamp e ->
        articles s' = articles s
        /\ error s' = Some msg
        /\ loading s' = false /\ c' = delete "articles" c).
Proof.
  intros Hfail He Hne. cbn zeta. unfold loadInitialData_resume.
  rewrite (fetchNews_rejected _ _ _ _ _ _ Hfail 1 true now c).
  split; intros Hage.
  - rewrite (loadFromCache_fresh _ _ _ He Hage), (nonempty_length _ Hne).
    cbn. auto.
  - rewrite (loadFromCache_expired _ _ _ He Hage). cbn. auto.
Qed.

(** The fallback does serve a cache that is fresh when the request
    fails: here the entry is written, while the request of the mounted
    screen is in flight, by the request of a screen mounted earlier. *)
Example fallback_serves_fresh_cache :
  exists sys,
    run [Mount 0 0; Mount 10 10;
         OrphanResolve PInit (Json "ok" None (sample_page 5)) 20;
         Resolve PInit (Threw None) 30] boot = Some sys
    /\ articles (screen sys) = sample_page 5
    /\ error (screen sys) = Some "Showing cached articles (offline mode)".
Proof. eexists. split; [reflexivity |]. split; reflexivity. Qed.

(** The failing run of C1, from program start: a first mount caches ten articles at
    t = 1000 ms; the screen is mounted again 399 s later, the entry is
    stale, the request fails.  The fallback finds nothing: the list is
    empty, the banner is the request's message, the entry is evicted. *)
Lemma stale_cache_is_not_served :
  exists sys0 sys1,
    run [Mount 0 0; Resolve PInit (Json "ok" None (sample_page 10)) 1000] boot
      = Some sys0
    /\ cache sys0 !! "articles" = Some (SimpleCache.mkEntry (sample_page 10) 1000)
    /\ run [Mount 400000 400000;
            Resolve PInit (Threw (Some "Network request failed")) 400500] sys0
       = Some sys1
    /\ articles (screen sys1) = []
    /\ articles (screen sys1) <> sample_page 10
    /\ error (screen sys1) = Some "Network request failed"
    /\ error (screen sys1) <> Some "Showing cached articles (offline mode)"
    /\ cache sys1 !! "articles" = None.
Proof.
  eexists _, _. split; [reflexivity |]. split; [reflexivity |].
  split; [reflexivity |]. repeat split; try reflexivity; discriminate.
Qed.

Lemma issued_means_nothing_cached (t_has t_get now : Z) (s : Screen)
    (c : Cache) :
  t_has <= t_get -> t_get <= now ->
  let r := loadInitialData_call t_has t_get s c in
  snd r = true ->
  fst (fst r) = setError None (setLoading true s)
  /\ fst (loadFromCache now (snd (fst r))) = [].
Proof.
  intros Hhg Hgn. cbn zeta. unfold loadInitialData_call, isCacheValid.
  destruct (c !! "articles") as [e|] eqn:He.
  - rewrite (has_present _ _ _ _ He).
    destruct (Z.leb_spec (t_has - SimpleCache.timestamp e) CACHE_DURATION)
      as [Hh | Hh].
    + destruct (Z.le_gt_cases (t_get - SimpleCache.timestamp e) CACHE_DURATION)
        as [Hg | Hg].
      * rewrite (loadFromCache_fresh t_get _ e He Hg).
        destruct (SimpleCache.data e) as [|a l] eqn:Ed;
          cbn [length Nat.ltb Nat.leb fst snd]; [| discriminate].
        intros _. split; [reflexivity |].
        destruct (Z.le_gt_cases (now - SimpleCache.timestamp e) CACHE_DURATION)
          as [Hn | Hn].
        -- rewrite (loadFromCache_fresh now _ e He Hn). exact Ed.
        -- rewrite (loadFromCache_expired now _ e He Hn). reflexivity.
      * rewrite (loadFromCache_expired t_get _ e He Hg).
        cbn [length Nat.ltb Nat.leb fst snd]. intros _.
        split; [reflexivity |].
        rewrite (loadFromCache_absent now _ (lookup_delete_eq c "articles")).
        reflexivity.
    + cbn [fst snd]. intros _. split; [reflexivity |].
      rewrite (loadFromCache_expired now _ e He); [reflexivity | lia].
  - rewrite (has_absent _ _ _ He). cbn [fst snd]. intros _.
    split; [reflexivity |]. rewrite (loadFromCache_absent now _ He).
    reflexivity.
Qed.

(** C1, what the code does.  The fallback of the initial load never
    serves anything when the screen runs alone: whatever the cache
    held at the mount (nothing, a stale list, a fresh one), if the
    request was issued and fails, with a clock that does not run
    backwards, the list shown is empty and the banner carries the
    message of the failed request.  The request is issued only after
    [has] and [get] found nothing usable, and the fallback asks the
    same [get] again. *)
Theorem initial_load_fallback_serves_nothing (sys sys' : Sys)
    (t_has t_get now : Z) (net : NetOutcome) (msg : string) :
  t_has <= t_get -> t_get <= now ->
  fetched PInit net now (cache sys) = inl msg ->
  run [Mount t_has t_get; Resolve PInit net now] sys = Some sys' ->
  articles (screen sys') = []
  /\ error (screen sys') = Some msg
  /\ loading (screen sys') = false.
Proof.
  intros Hhg Hgn Hfail Hrun. unfold fetched in Hfail.
  cbn [request_of fst snd] in Hfail.
  pose proof (issued_means_nothing_cached t_has t_get now initial_screen
                (cache sys) Hhg Hgn) as Hcall.
  cbn zeta in Hcall. unfold run, step in Hrun.
  destruct (loadInitialData_call t_has t_get initial_screen (cache sys))
    as [[s1 c1] issued].
  cbn [fst snd inflight screen cache alerts] in Hcall, Hrun.
  destruct issued; cbn [take_pending pending_eqb] in Hrun; [| discriminate].
  destruct (Hcall eq_refl) as [-> Hnone].
  unfold resume, loadInitialData_resume in Hrun.
  rewrite (fetchNews_rejected _ _ _ _ _ _ Hfail 1 true now c1) in Hrun.
  destruct (loadFromCache now c1) as [l c2]. cbn [fst] in Hnone. subst l.
  injection Hrun as <-. repeat split.
Qed.

Lemma initial_load_fallback_serves_nothing_witness :
  let stale : Cache := {[ "articles" := SimpleCache.mkEntry (sample_page 10) 1000 ]} in
  let sys := {| screen := initial_screen; rendered := initial_screen;
                cache := stale; inflight := []; orphans := [];
                opening := []; alerts := [] |} in
  let net := Threw (Some "Network request failed") in
  exists sys',
    run [Mount 400000 400000; Resolve PInit net 400500] sys = Some sys'
    /\ articles (screen sys') = []
    /\ error (screen sys') = Some "Network request failed".
Proof.
  cbn zeta. eexists.
  match goal with
  | |- ?r = Some ?b /\ _ => assert (Hrun : r = Some b) by reflexivity
  end.
  split; [exact Hrun |].
  destruct (initial_load_fallback_serves_nothing _ _ 400000 400000 400500
              (Threw (Some "Network request failed"))
              "Network request failed" ltac:(lia) ltac:(lia) eq_refl Hrun)
    as (Ha & He & _).
  split; [exact Ha | exact He].
Defined.

(** C4. Starting with nothing cached under ['articles'] (an empty cache
    in particular), a mount whose request succeeds with exactly twenty
    articles, all valid, ends with these twenty shown, [page = 2],
    [hasMore = true], and the cache holding these twenty, stamped with
    the time of the write: the initial load calls [fetchNews(1, true)]
    and so writes the cache like a refresh. *)
Theorem initial_load_full_page (sys : Sys) (t_has t_get now : Z)
    (m : option string) (arts : list Article) :
  cache sys !! "articles" = None ->
  length arts = 20%nat ->
  List.Forall (fun a => valid_article a = true) arts ->
  exists sys',
    run [Mount t_has t_get; Resolve PInit (Json "ok" m arts) now] sys = Some sys'
    /\ articles (screen sys') = arts
    /\ page (screen sys') = 2
    /\ hasMore (screen sys') = true
    /\ loading (screen sys') = false
    /\ error (screen sys') = None
    /\ cache sys' = <["articles" := SimpleCache.mkEntry arts now]> (cache sys).
Proof.
  intros Hc Hlen Hvalid.
  unfold run, step, loadInitialData_call, isCacheValid.
  rewrite (has_absent _ _ _ Hc). cbn [take_pending pending_eqb resume].
  unfold loadInitialData_resume. rewrite fetchNews_ok.
  rewrite (filter_valid_id _ Hvalid). cbn [Z.eqb andb Pos.eqb].
  eexists. split; [reflexivity |]. cbn. rewrite Hlen. repeat split.
Qed.

Lemma initial_load_full_page_witness :
  exists sys',
    run [Mount 0 0; Resolve PInit (Json "ok" None (sample_page 20)) 1000] boot
      = Some sys'
    /\ articles (screen sys') = sample_page 20
    /\ page (screen sys') = 2
    /\ hasMore (screen sys') = true
    /\ loading (screen sys') = false
    /\ error (screen sys') = None
    /\ cache sys' = <["articles" := SimpleCache.mkEntry (sample_page 20) 1000]> ∅.
Proof.
  apply (initial_load_full_page boot 0 0 1000 None (sample_page 20)).
  - reflexivity.
  - reflexivity.
  - apply sample_page_valid.
Defined.

(** C10. A mount that finds a fresh, non-empty entry under ['articles']
    shows the cached list and sets [page] to 2 and nothing else:
    [hasMore] is left as it was, whatever the length of the cached list
    (also below twenty), no request is issued and the cache is not
    written.  On a fresh mount [hasMore] is therefore [true], and once
    the screen has rendered the cached list the next load-more call
    does issue [fetchNews(2)]. *)
Theorem cached_initial_load_keeps_hasMore (sys : Sys) (s : Screen)
    (e : SimpleCache.Entry (list Article)) (t_has t_get : Z) :
  cache sys !! "articles" = Some e ->
  SimpleCache.data e <> [] ->
  t_has - SimpleCache.timestamp e <= CACHE_DURATION ->
  t_get - SimpleCache.timestamp e <= CACHE_DURATION ->
  let shown := setPage 2 (setArticles (SimpleCache.data e) initial_screen) in
  let mounted := {| screen := shown; rendered := initial_screen;
                    cache := cache sys; inflight := [];
                    orphans := (orphans sys ++ inflight sys)%list;
                    opening := opening sys; alerts := alerts sys |} in
  loadInitialData_call t_has t_get s (cache sys)
    = (setLoading false (setPage 2 (setArticles (SimpleCache.data e)
         (setError None (setLoading true s)))), cache sys, false)
  /\ hasMore (fst (fst (loadInitialData_call t_has t_get s (cache sys))))
     = hasMore s
  /\ step (Mount t_has t_get) sys = Some mounted
  /\ hasMore shown = true
  /\ run [Render; LoadMoreCall] mounted
     = Some {| screen := setLoadingMore true shown; rendered := shown;
               cache := cache sys; inflight := [PMore 2];
               orphans := (orphans sys ++ inflight sys)%list;
               opening := opening sys; alerts := alerts sys |}.
Proof.
  intros He Hne Hhas Hget. cbn zeta.
  assert (Hcall : forall s0, loadInitialData_call t_has t_get s0 (cache sys)
    = (setLoading false (setPage 2 (setArticles (SimpleCache.data e)
         (setError None (setLoading true s0)))), cache sys, false)).
  { intros s0. unfold loadInitialData_call, isCacheValid.
    rewrite (has_present _ _ _ _ He).
    destruct (Z.leb_spec (t_has - SimpleCache.timestamp e) CACHE_DURATION);
      [| lia].
    rewrite (loadFromCache_fresh _ _ _ He Hget), (nonempty_length _ Hne).
    reflexivity. }
  split; [apply Hcall |]. split; [rewrite Hcall; reflexivity |].
  split; [unfold step; rewrite Hcall; reflexivity |].
  split; reflexivity.
Qed.

Lemma cached_initial_load_keeps_hasMore_witness :
  let five : Cache := {[ "articles" := SimpleCache.mkEntry (sample_page 5) 1000 ]} in
  let sys := {| screen := initial_screen; rendered := initial_screen;
                cache := five; inflight := []; orphans := [];
                opening := []; alerts := [] |} in
  exists mounted,
    step (Mount 61000 61000) sys = Some mounted
    /\ length (articles (screen mounted)) = 5%nat
    /\ hasMore (screen mounted) = true
    /\ option_map inflight (run [Render; LoadMoreCall] mounted)
       = Some [PMore 2].
Proof.
  cbn zeta.
  pose (e := SimpleCache.mkEntry (sample_page 5) 1000).
  pose (sys := {| screen := initial_screen; rendered := initial_screen;
                  cache := ({[ "articles" := e ]} : Cache);
                  inflight := []; orphans := []; opening := [];
                  alerts := [] |}).
  assert (Hl : cache sys !! "articles" = Some e) by apply lookup_singleton_eq.
  assert (Hne : SimpleCache.data e <> []) by discriminate.
  assert (Hage : 61000 - SimpleCache.timestamp e <= CACHE_DURATION)
    by (unfold CACHE_DURATION; cbn; lia).
  destruct (cached_initial_load_keeps_hasMore sys initial_screen e 61000 61000
              Hl Hne Hage Hage) as (_ & _ & Hmount & Hmore & Hnext).
  eexists. split; [exact Hmount |]. split; [reflexivity |].
  split; [exact Hmore |]. rewrite Hnext. reflexivity.
Defined.

(** ** What reaches the cache *)

Lemma cache_valid_empty : cache_valid ∅.
Proof. intros key e H. rewrite lookup_empty in H. discriminate. Qed.

Lemma cache_valid_insert (c : Cache) key l now :
  cache_valid c ->
  List.Forall (fun a => valid_article a = true) l ->
  cache_valid (<[key := SimpleCache.mkEntry l now]> c).
Proof.
  intros Hc Hl k e. rewrite lookup_insert. case_decide.
  - intros [= <-]. exact Hl.
  - apply Hc.
Qed.

Lemma cache_valid_delete (c : Cache) key :
  cache_valid c -> cache_valid (delete key c).
Proof.
  intros Hc k e. rewrite lookup_delete. case_decide; [discriminate | apply Hc].
Qed.

Lemma cache_valid_get (c : Cache) now key :
  cache_valid c -> cache_valid (snd (SimpleCache.get now key c)).
Proof.
  intros Hc. unfold SimpleCache.get. destruct (c !! key) as [e|]; [| exact Hc].
  cbn zeta. destruct (CACHE_DURATION <? now - SimpleCache.timestamp e);
    [apply cache_valid_delete |]; exact Hc.
Qed.

Lemma cache_valid_has (c : Cache) now key :
  cache_valid c -> cache_valid (snd (SimpleCache.has now key c)).
Proof.
  intros Hc. unfold SimpleCache.has. destruct (c !! key); exact Hc.
Qed.

Lemma cache_valid_loadFromCache (c : Cache) now :
  cache_valid c -> cache_valid (snd (loadFromCache now c)).
Proof.
  intros Hc. unfold loadFromCache.
  pose proof (cache_valid_get c now "articles" Hc) as H.
  destruct (SimpleCache.get now "articles" c). exact H.
Qed.

Lemma cache_valid_fetchNews (c : Cache) pageNum isRefresh net now :
  cache_valid c -> cache_valid (snd (fetchNews pageNum isRefresh net now c)).
Proof.
  intros Hc. unfold fetchNews. destruct net as [m | status m arts]; [exact Hc |].
  destruct (negb (String.eqb status "ok")); [exact Hc |]. cbn [snd].
  destruct ((pageNum =? 1) && isRefresh); [| exact Hc].
  apply cache_valid_insert; [exact Hc | apply filter_valid_all].
Qed.

Lemma cache_valid_initial_call (c : Cache) t_has t_get s :
  cache_valid c ->
  cache_valid (snd (fst (loadInitialData_call t_has t_get s c))).
Proof.
  intros Hc. unfold loadInitialData_call, isCacheValid.
  pose proof (cache_valid_has c t_has "articles" Hc) as H1.
  destruct (SimpleCache.has t_has "articles" c) as [valid c1]. cbn [snd] in H1.
  destruct valid; [| exact H1].
  pose proof (cache_valid_loadFromCache c1 t_get H1) as H2.
  destruct (loadFromCache t_get c1) as [l c2]. cbn [snd] in H2.
  destruct (0 <? length l)%nat; exact H2.
Qed.

Lemma cache_valid_initial_resume (c : Cache) net now s :
  cache_valid c -> cache_valid (snd (loadInitialData_resume net now s c)).
Proof.
  intros Hc. unfold loadInitialData_resume.
  pose proof (cache_valid_fetchNews c 1 true net now Hc) as H1.
  destruct (fetchNews 1 true net now c) as [[msg | l] c1]; cbn [snd] in H1;
    [| exact H1].
  pose proof (cache_valid_loadFromCache c1 now H1) as H2.
  destruct (loadFromCache now c1) as [l c2]. exact H2.
Qed.

Lemma cache_valid_refresh_resume (c : Cache) net now s al :
  cache_valid c -> cache_valid (snd (fst (onRefresh_resume net now s c al))).
Proof.
  intros Hc. unfold onRefresh_resume.
  pose proof (cache_valid_fetchNews c 1 true net now Hc) as H1.
  destruct (fetchNews 1 true net now c) as [[msg | l] c1]; exact H1.
Qed.

Lemma cache_valid_more_resume (c : Cache) pageNum net now s al :
  cache_valid c ->
  cache_valid (snd (fst (loadMore_resume pageNum net now s c al))).
Proof.
  intros Hc. unfold loadMore_resume.
  pose proof (cache_valid_fetchNews c pageNum false net now Hc) as H1.
  destruct (fetchNews pageNum false net now c) as [[msg | l] c1]; exact H1.
Qed.

Lemma cache_valid_resume (c : Cache) p net now s al :
  cache_valid c -> cache_valid (snd (fst (resume p net now s c al))).
Proof.
  intros Hc. destruct p as [| | pageNum]; unfold resume.
  - pose proof (cache_valid_initial_resume c net now s Hc) as H.
    destruct (loadInitialData_resume net now s c). exact H.
  - apply cache_valid_refresh_resume, Hc.
  - apply cache_valid_more_resume, Hc.
Qed.

Lemma cache_valid_step e sys sys' :
  step e sys = Some sys' -> cache_valid (cache sys) -> cache_valid (cache sys').
Proof.
  intros Hstep Hc.
  destruct e as [t_has t_get | | | p net now | p net now | | u | u ok];
    unfold step in Hstep.
  6-8: quiet_turn Hstep; exact Hc.
  - pose proof (cache_valid_initial_call _ t_has t_get initial_screen Hc) as H.
    destruct (loadInitialData_call t_has t_get initial_screen (cache sys))
      as [[s c] issued].
    injection Hstep as <-. exact H.
  - injection Hstep as <-. exact Hc.
  - destruct (loadMore_call (rendered sys) (screen sys)) as [s issued].
    injection Hstep as <-. exact Hc.
  - destruct (take_pending p (inflight sys)) as [rest|]; [| discriminate].
    pose proof (cache_valid_resume _ p net now (screen sys) (alerts sys) Hc) as H.
    destruct (resume p net now (screen sys) (cache sys) (alerts sys))
      as [[s c] al].
    injection Hstep as <-. exact H.
  - destruct (take_pending p (orphans sys)) as [rest|]; [| discriminate].
    pose proof (cache_valid_resume _ p net now initial_screen (alerts sys) Hc) as H.
    destruct (resume p net now initial_screen (cache sys) (alerts sys))
      as [[s c] al].
    injection Hstep as <-. exact H.
Qed.

Lemma run_reachable evs sys sys' :
  reachable sys -> run evs sys = Some sys' -> reachable sys'.
Proof.
  revert sys. induction evs as [|e evs IH]; intros sys Hr; cbn.
  - intros [= <-]. exact Hr.
  - destruct (step e sys) as [sys1|] eqn:E; [| discriminate].
    apply IH. exact (reachable_step e sys sys1 Hr E).
Qed.

(** C8. In every state the program can reach from its start, each
    payload held by the cache consists of valid articles only: title
    and description are present and non-empty, and neither is the
    string '[Removed]'. *)
Theorem cache_holds_valid_articles (sys : Sys) :
  reachable sys ->
  forall key e a,
    cache sys !! key = Some e ->
    List.In a (SimpleCache.data e) ->
    exists t d,
      title a = Some t /\ description a = Some d
      /\ t <> "" /\ d <> "" /\ t <> "[Removed]" /\ d <> "[Removed]".
Proof.
  intros Hr.
  assert (Hc : cache_valid (cache sys)).
  { induction Hr as [| e sys sys' _ IH Hstep].
    - apply cache_valid_empty.
    - exact (cache_valid_step e sys sys' Hstep IH). }
  intros key e a He Ha. apply valid_article_spec.
  pose proof (Hc key e He) as Hall.
  rewrite List.Forall_forall in Hall. apply Hall, Ha.
Qed.

Lemma cache_holds_valid_articles_witness :
  exists sys,
    run [Mount 0 0;
         Resolve PInit (Json "ok" None (removed_article :: sample_page 2)) 1000]
        boot = Some sys
    /\ cache sys !! "articles" = Some (SimpleCache.mkEntry (sample_page 2) 1000)
    /\ exists t d,
         title (sample_article "Headline") = Some t
         /\ description (sample_article "Headline") = Some d
         /\ t <> "" /\ d <> "" /\ t <> "[Removed]" /\ d <> "[Removed]".
Proof.
  eexists. split; [reflexivity |]. split; [reflexivity |].
  eapply cache_holds_valid_articles with (key := "articles").
  - eapply (run_reachable
              [Mount 0 0;
               Resolve PInit (Json "ok" None (removed_article :: sample_page 2)) 1000]
              boot); [apply reachable_boot | reflexivity].
  - reflexivity.
  - left. reflexivity.
Defined.

(** ** Requests in flight *)

Lemma pending_eqb_eq p q : pending_eqb p q = true -> p = q.
Proof.
  destruct p, q; cbn; try discriminate; try reflexivity.
  intros H. apply Z.eqb_eq in H. now subst.
Qed.

Lemma take_pending_In p l rest : take_pending p l = Some rest -> List.In p l.
Proof.
  revert rest. induction l as [|q l IH]; cbn; [discriminate |].
  intros rest. destruct (pending_eqb p q) eqn:E.
  - intros _. left. symmetry. now apply pending_eqb_eq.
  - destruct (take_pending p l) as [r|]; [| discriminate].
    intros _. right. now apply (IH r).
Qed.














(** ** Failed requests *)

Lemma refresh_resume_failed net now s (c : Cache) al msg :
  fst (fetchNews 1 true net now c) = inl msg ->
  onRefresh_resume net now s c al
  = (setRefreshing false (setError (Some msg) s), c,
     (al ++ [("Refresh Failed", msg)])%list).
Proof.
  intros H. unfold onRefresh_resume.
  now rewrite (fetchNews_rejected _ _ _ _ _ _ H 1 true now c).
Qed.

Lemma more_resume_failed pageNum net now s (c : Cache) al msg :
  fst (fetchNews pageNum false net now c) = inl msg ->
  loadMore_resume pageNum net now s c al
  = (setLoadingMore false s, c,
     (al ++ [("Error", "Failed to load more articles")])%list).
Proof.
  intros H. unfold loadMore_resume.
  now rewrite (fetchNews_rejected _ _ _ _ _ _ H pageNum false now c).
Qed.

Lemma loadMore_call_same_feed snap s :
  same_feed s (fst (loadMore_call snap s)).
Proof.
  unfold loadMore_call.
  destruct (loadingMore snap || negb (hasMore snap)); repeat split.
Qed.

(** C2. A refresh or a load-more whose request fails leaves the list
    shown, [page] and [hasMore] as they were (and the cache too): this
    holds of the call that issues the request, of the continuation that
    receives the failure, in whatever state it resumes, and so of the
    two run back to back. *)
Theorem failed_fetch_keeps_feed (sys : Sys) :
  (forall sys', step RefreshCall sys = Some sys' ->
     same_feed (screen sys) (screen sys') /\ cache sys' = cache sys)
  /\ (forall sys', step LoadMoreCall sys = Some sys' ->
        same_feed (screen sys) (screen sys') /\ cache sys' = cache sys)
  /\ (forall p net now msg sys',
        p <> PInit ->
        fetched p net now (cache sys) = inl msg ->
        step (Resolve p net now) sys = Some sys' ->
        same_feed (screen sys) (screen sys') /\ cache sys' = cache sys)
  /\ (forall net now msg sys',
        fetched PRefresh net now (cache sys) = inl msg ->
        run [RefreshCall; Resolve PRefresh net now] sys = Some sys' ->
        same_feed (screen sys) (screen sys') /\ cache sys' = cache sys)
  /\ (forall pageNum net now msg sys',
        fetched (PMore pageNum) net now (cache sys) = inl msg ->
        run [LoadMoreCall; Resolve (PMore pageNum) net now] sys = Some sys' ->
        same_feed (screen sys) (screen sys') /\ cache sys' = cache sys).
Proof.
  assert (Hresolve : forall sys0 p net now msg sys',
            p <> PInit ->
            fetched p net now (cache sys0) = inl msg ->
            step (Resolve p net now) sys0 = Some sys' ->
            same_feed (screen sys0) (screen sys') /\ cache sys' = cache sys0).
  { intros sys0 p net now msg sys' Hp Hfail Hstep. unfold step in Hstep.
    destruct (take_pending p (inflight sys0)) as [rest|]; [| discriminate].
    unfold fetched in Hfail.
    destruct p as [| | pageNum]; [congruence | |]; cbn in Hfail, Hstep.
    - rewrite (refresh_resume_failed _ _ _ _ _ _ Hfail) in Hstep.
      injection Hstep as <-. repeat split.
    - rewrite (more_resume_failed _ _ _ _ _ _ _ Hfail) in Hstep.
      injection Hstep as <-. repeat split. }
  assert (Hrefresh : forall sys', step RefreshCall sys = Some sys' ->
            same_feed (screen sys) (screen sys') /\ cache sys' = cache sys).
  { intros sys' [= <-]. repeat split. }
  assert (Hmore : forall sys', step LoadMoreCall sys = Some sys' ->
            same_feed (screen sys) (screen sys') /\ cache sys' = cache sys).
  { intros sys' Hstep. unfold step in Hstep.
    pose proof (loadMore_call_same_feed (rendered sys) (screen sys)) as Hsame.
    destruct (loadMore_call (rendered sys) (screen sys)) as [s issued].
    injection Hstep as <-. split; [exact Hsame | reflexivity]. }
  assert (Hseq : forall e p net now msg sys',
            (forall sys1, step e sys = Some sys1 ->
               same_feed (screen sys) (screen sys1) /\ cache sys1 = cache sys) ->
            p <> PInit ->
            fetched p net now (cache sys) = inl msg ->
            run [e; Resolve p net now] sys = Some sys' ->
            same_feed (screen sys) (screen sys') /\ cache sys' = cache sys).
  { intros e p net now msg sys' He Hp Hfail Hrun. cbn [run] in Hrun.
    destruct (step e sys) as [sys1|] eqn:E1; [| discriminate].
    destruct (step (Resolve p net now) sys1) as [sys2|] eqn:E2;
      [| discriminate].
    injection Hrun as <-.
    destruct (He sys1 eq_refl) as [(Ha & Hp1 & Hh) Hc].
    rewrite <- Hc in Hfail.
    destruct (Hresolve sys1 p net now msg sys2 Hp Hfail E2)
      as [(Ha' & Hp' & Hh') Hc'].
    unfold same_feed. repeat split; congruence. }
  split; [exact Hrefresh |]. split; [exact Hmore |].
  split; [apply Hresolve |]. split.
  - intros net now msg sys' Hfail Hrun.
    apply (Hseq RefreshCall PRefresh net now msg sys' Hrefresh);
      first [assumption | discriminate].
  - intros pageNum net now msg sys' Hfail Hrun.
    apply (Hseq LoadMoreCall (PMore pageNum) net now msg sys' Hmore);
      first [assumption | discriminate].
Qed.

Lemma failed_fetch_keeps_feed_witness :
  (fetched PRefresh (Threw None) 2000 (cache sample_ready)
     = inl "Network error occurred"
   /\ exists sys1,
        run [RefreshCall; Resolve PRefresh (Threw None) 2000] sample_ready
          = Some sys1
        /\ same_feed (screen sample_ready) (screen sys1))
  /\ (fetched (PMore 2) (Json "error" (Some "rateLimited") []) 3000
         (cache sample_ready) = inl "rateLimited"
      /\ exists sys2,
           run [LoadMoreCall;
                Resolve (PMore 2) (Json "error" (Some "rateLimited") []) 3000]
               sample_ready = Some sys2
           /\ same_feed (screen sample_ready) (screen sys2)).
Proof.
  destruct (failed_fetch_keeps_feed sample_ready) as (_ & _ & _ & Hr & Hm).
  split; (split; [reflexivity |]); eexists; (split; [reflexivity |]).
  - apply (Hr (Threw None) 2000 "Network error occurred"); reflexivity.
  - apply (Hm 2 (Json "error" (Some "rateLimited") []) 3000 "rateLimited");
      reflexivity.
Defined.

(** ** The end-of-data latch *)







Lemma sample_loading_more_reachable : reachable sample_loading_more.
Proof.
  apply (run_reachable [LoadMoreCall] sample_ready);
    [apply sample_ready_reachable | reflexivity].
Qed.



(** * Further properties of the cache *)

(** X1. A second [set] under the same key replaces the first entirely:
    the map is the one a single [set] of the second payload would have
    produced, freshness is counted from the second write, and a read
    within [CACHE_DURATION] of it yields the second payload, however
    old the first write was. *)
Theorem set_replaces_entry {A : Type} (cache : gmap string (SimpleCache.Entry A))
    (key : string) (d1 d2 : A) (t1 t2 t : Z) :
  let twice :=
    snd (SimpleCache.set t2 key d2 (snd (SimpleCache.set t1 key d1 cache))) in
  twice = snd (SimpleCache.set t2 key d2 cache)
  /\ fst (SimpleCache.has t key twice) = (t - t2 <=? CACHE_DURATION)
  /\ (t - t2 <= CACHE_DURATION ->
      SimpleCache.get t key twice = (Some d2, twice)).
Proof.
  cbn zeta. unfold SimpleCache.set. cbn [snd]. rewrite insert_insert_eq.
  set (e := SimpleCache.mkEntry d2 t2).
  assert (Hl : <[key:=e]> cache !! key = Some e) by apply lookup_insert_eq.
  split; [reflexivity |]. split.
  - rewrite (has_present _ _ _ e Hl). reflexivity.
  - intros Hage. apply (get_fresh _ _ _ e Hl). exact Hage.
Qed.

Lemma set_replaces_entry_witness :
  let twice :=
    snd (SimpleCache.set 900000 "articles" (sample_page 2)
           (snd (SimpleCache.set 0 "articles" (sample_page 7) ∅))) in
  900500 - 900000 <= CACHE_DURATION
  /\ SimpleCache.get 900500 "articles" twice = (Some (sample_page 2), twice).
Proof.
  cbn zeta.
  assert (H : 900500 - 900000 <= CACHE_DURATION) by (unfold CACHE_DURATION; lia).
  split; [exact H |].
  destruct (set_replaces_entry ∅ "articles" (sample_page 7) (sample_page 2)
              0 900000 900500) as (_ & _ & Hget).
  exact (Hget H).
Defined.

(** X2. The methods act on their own key only: [set], [get] (eviction
    included) and [has] on [key] leave the entry of any other key as it
    was, and what [get] and [has] answer for the other key is the same
    before and after. *)
Theorem cache_methods_touch_one_key {A : Type}
    (cache : gmap string (SimpleCache.Entry A))
    (key other : string) (d : A) (t t' : Z) :
  key <> other ->
  snd (SimpleCache.set t key d cache) !! other = cache !! other
  /\ snd (SimpleCache.get t key cache) !! other = cache !! other
  /\ snd (SimpleCache.has t key cache) !! other = cache !! other
  /\ fst (SimpleCache.get t' other (snd (SimpleCache.set t key d cache)))
     = fst (SimpleCache.get t' other cache)
  /\ fst (SimpleCache.get t' other (snd (SimpleCache.get t key cache)))
     = fst (SimpleCache.get t' other cache)
  /\ fst (SimpleCache.has t' other (snd (SimpleCache.get t key cache)))
     = fst (SimpleCache.has t' other cache).
Proof.
  intros Hne.
  assert (Hset : snd (SimpleCache.set t key d cache) !! other = cache !! other).
  { unfold SimpleCache.set. cbn [snd]. now apply lookup_insert_ne. }
  assert (Hget : snd (SimpleCache.get t key cache) !! other = cache !! other).
  { unfold SimpleCache.get. destruct (cache !! key) as [e|]; [| reflexivity].
    cbn zeta. destruct (CACHE_DURATION <? t - SimpleCache.timestamp e);
      cbn [snd]; [now apply lookup_delete_ne | reflexivity]. }
  assert (Hhas : snd (SimpleCache.has t key cache) !! other = cache !! other).
  { unfold SimpleCache.has. destruct (cache !! key); reflexivity. }
  assert (Hread : forall c c' : gmap string (SimpleCache.Entry A),
            c !! other = c' !! other ->
            fst (SimpleCache.get t' other c) = fst (SimpleCache.get t' other c')
            /\ fst (SimpleCache.has t' other c)
               = fst (SimpleCache.has t' other c')).
  { intros c c' Heq. unfold SimpleCache.get, SimpleCache.has. rewrite Heq.
    destruct (c' !! other) as [e|]; [| split; reflexivity]. cbn zeta.
    destruct (CACHE_DURATION <? t' - SimpleCache.timestamp e);
      split; reflexivity. }
  split; [exact Hset |]. split; [exact Hget |]. split; [exact Hhas |].
  split; [apply (Hread _ _ Hset) |].
  split; apply (Hread _ _ Hget).
Qed.

Lemma cache_methods_touch_one_key_witness :
  let c : Cache := {[ "weather" := SimpleCache.mkEntry (sample_page 1) 0 ]} in
  "articles" <> "weather"
  /\ snd (SimpleCache.get 999999 "articles"
            (snd (SimpleCache.set 0 "articles" (sample_page 3) c))) !! "weather"
     = Some (SimpleCache.mkEntry (sample_page 1) 0).
Proof.
  cbn zeta. assert (Hne : "articles" <> "weather") by discriminate.
  split; [exact Hne |].
  destruct (cache_methods_touch_one_key
              (snd (SimpleCache.set 0 "articles" (sample_page 3)
                      ({[ "weather" := SimpleCache.mkEntry (sample_page 1) 0 ]}
                       : Cache)))
              "articles" "weather" (sample_page 3) 999999 0 Hne)
    as (_ & Hget & _).
  rewrite Hget. reflexivity.
Defined.

(** X3. After [clear()] nothing is left: [get] answers [null] and [has]
    answers [false] for every key at every time, and the map stays
    empty. *)
Theorem clear_forgets_every_key {A : Type}
    (cache : gmap string (SimpleCache.Entry A)) (key : string) (now : Z) :
  SimpleCache.get now key (snd (SimpleCache.clear cache)) = (None, ∅)
  /\ SimpleCache.has now key (snd (SimpleCache.clear cache)) = (false, ∅).
Proof.
  cbn [SimpleCache.clear snd]. split.
  - apply get_absent, lookup_empty.
  - apply has_absent, lookup_empty.
Qed.

(** X4. Without a new [set], an entry that [has] reports as not fresh
    at some time is not fresh at any later time either, and [get]
    answers [null] then. *)
Theorem stale_stays_stale {A : Type}
    (cache : gmap string (SimpleCache.Entry A)) (key : string) (t t' : Z) :
  fst (SimpleCache.has t key cache) = false ->
  t <= t' ->
  fst (SimpleCache.has t' key cache) = false
  /\ fst (SimpleCache.get t' key cache) = None.
Proof.
  unfold SimpleCache.has, SimpleCache.get.
  destruct (cache !! key) as [e|]; cbn [fst]; [| intros _ _; split; reflexivity].
  intros Hstale Hle. apply Z.leb_gt in Hstale. split.
  - apply Z.leb_gt. lia.
  - destruct (Z.ltb_spec CACHE_DURATION (t' - SimpleCache.timestamp e));
      [reflexivity | lia].
Qed.

Lemma stale_stays_stale_witness :
  let c : Cache := {[ "articles" := SimpleCache.mkEntry (sample_page 1) 0 ]} in
  fst (SimpleCache.has 300001 "articles" c) = false
  /\ 300001 <= 300002
  /\ fst (SimpleCache.get 300002 "articles" c) = None.
Proof.
  cbn zeta.
  assert (H1 : fst (SimpleCache.has 300001 "articles"
                      ({[ "articles" := SimpleCache.mkEntry (sample_page 1) 0 ]}
                       : Cache)) = false) by reflexivity.
  assert (H2 : 300001 <= 300002) by lia.
  split; [exact H1 |]. split; [exact H2 |].
  exact (proj2 (stale_stays_stale _ "articles" 300001 300002 H1 H2)).
Defined.

(** X5. A [get] settles the entry for its instant: read again at the
    same time, [get] gives the same answer and changes nothing more,
    and [has] answers as it did before the read. *)
Theorem get_settles {A : Type}
    (cache : gmap string (SimpleCache.Entry A)) (key : string) (now : Z) :
  let after := snd (SimpleCache.get now key cache) in
  SimpleCache.get now key after = (fst (SimpleCache.get now key cache), after)
  /\ SimpleCache.has now key after = (fst (SimpleCache.has now key cache), after).
Proof.
  cbn zeta. destruct (cache !! key) as [e|] eqn:He.
  - destruct (Z.ltb_spec CACHE_DURATION (now - SimpleCache.timestamp e))
      as [Hlt | Hge].
    + rewrite (get_expired _ _ _ _ He Hlt). cbn [fst snd].
      rewrite (get_absent _ _ _ (lookup_delete_eq cache key)).
      rewrite (has_absent _ _ _ (lookup_delete_eq cache key)).
      rewrite (has_present _ _ _ _ He). cbn [fst].
      destruct (Z.leb_spec (now - SimpleCache.timestamp e) CACHE_DURATION);
        [lia | split; reflexivity].
    + rewrite (get_fresh _ _ _ _ He Hge). cbn [fst snd].
      rewrite (get_fresh _ _ _ _ He Hge), (has_present _ _ _ _ He).
      split; reflexivity.
  - rewrite (get_absent _ _ _ He). cbn [fst snd].
    rewrite (get_absent _ _ _ He), (has_absent _ _ _ He).
    split; reflexivity.
Qed.

(** * Further properties of the feed controller *)

(** ** Bookkeeping of pending requests *)

Lemma take_pending_count (f : Pending -> bool) p l rest :
  take_pending p l = Some rest ->
  length (List.filter f l)
  = ((if f p then 1 else 0) + length (List.filter f rest))%nat.
Proof.
  revert rest. induction l as [|q l IH]; cbn; [discriminate |].
  intros rest. destruct (pending_eqb p q) eqn:E.
  - intros [= <-]. apply pending_eqb_eq in E. subst q.
    destruct (f p); reflexivity.
  - destruct (take_pending p l) as [r|]; [| discriminate].
    intros [= <-]. specialize (IH r eq_refl). cbn.
    destruct (f q), (f p); cbn in *; lia.
Qed.

Lemma take_pending_sub p l rest q :
  take_pending p l = Some rest -> List.In q rest -> List.In q l.
Proof.
  revert rest. induction l as [|x l IH]; cbn; [discriminate |].
  intros rest. destruct (pending_eqb p x).
  - intros [= <-] Hq. now right.
  - destruct (take_pending p l) as [r|]; [| discriminate].
    intros [= <-] [-> | Hq]; [now left | right; exact (IH r eq_refl Hq)].
Qed.

Lemma count_positive_In (f : Pending -> bool) l :
  (1 <= length (List.filter f l))%nat -> exists p, List.In p l /\ f p = true.
Proof.
  destruct (List.filter f l) as [|p r] eqn:E; cbn; [lia |]. intros _.
  exists p. apply List.filter_In. rewrite E. now left.
Qed.

Lemma In_count_positive (f : Pending -> bool) l p :
  List.In p l -> f p = true -> (1 <= length (List.filter f l))%nat.
Proof.
  intros Hin Hf.
  assert (H : List.In p (List.filter f l)) by (apply List.filter_In; auto).
  destruct (List.filter f l); [destruct H | cbn; lia].
Qed.

(** ** What the handlers return *)

Lemma fetchNews_valid pageNum isRefresh net now (c : Cache) l :
  fst (fetchNews pageNum isRefresh net now c) = inr l ->
  List.Forall (fun a => valid_article a = true) l.
Proof.
  intros H. destruct (fetchNews_resolved _ _ _ _ _ _ H) as (m & arts & _ & -> & _).
  apply filter_valid_all.
Qed.

Lemma fetchNews_cache_move pageNum isRefresh net now (c : Cache) :
  cache_move c (snd (fetchNews pageNum isRefresh net now c)).
Proof.
  unfold fetchNews. destruct net as [m | status m arts]; [constructor |].
  destruct (negb (String.eqb status "ok")); [constructor |]. cbn [snd].
  destruct ((pageNum =? 1) && isRefresh); [| constructor].
  unfold saveToCache, SimpleCache.set. cbn [snd].
  constructor. apply filter_valid_all.
Qed.

Lemma fetchNews_plain_keeps_cache pageNum net now (c : Cache) :
  snd (fetchNews pageNum false net now c) = c.
Proof.
  unfold fetchNews. destruct net as [m | status m arts]; [reflexivity |].
  destruct (negb (String.eqb status "ok")); [reflexivity |]. cbn [snd].
  now rewrite andb_false_r.
Qed.

Lemma loadFromCache_cache_move now (c : Cache) :
  cache_move c (snd (loadFromCache now c)).
Proof.
  unfold loadFromCache, SimpleCache.get.
  destruct (c !! "articles") as [e|]; [| constructor]. cbn zeta.
  destruct (CACHE_DURATION <? now - SimpleCache.timestamp e); constructor.
Qed.

Lemma loadFromCache_valid now (c : Cache) :
  cache_valid c ->
  List.Forall (fun a => valid_article a = true) (fst (loadFromCache now c)).
Proof.
  intros Hc. unfold loadFromCache, SimpleCache.get.
  destruct (c !! "articles") as [e|] eqn:He; [| constructor]. cbn zeta.
  destruct (CACHE_DURATION <? now - SimpleCache.timestamp e); cbn;
    [constructor | exact (Hc _ _ He)].
Qed.

Lemma isCacheValid_keeps_cache now (c : Cache) : snd (isCacheValid now c) = c.
Proof.
  unfold isCacheValid, SimpleCache.has. destruct (c !! "articles"); reflexivity.
Qed.

Lemma initial_call_cache_move t_has t_get s (c : Cache) :
  cache_move c (snd (fst (loadInitialData_call t_has t_get s c))).
Proof.
  unfold loadInitialData_call.
  pose proof (isCacheValid_keeps_cache t_has c) as Hk.
  destruct (isCacheValid t_has c) as [valid c1]. cbn [snd] in Hk. subst c1.
  destruct valid; [| constructor].
  pose proof (loadFromCache_cache_move t_get c) as Hm.
  destruct (loadFromCache t_get c) as [l c2].
  destruct (0 <? length l)%nat; exact Hm.
Qed.

Lemma initial_call_screen_valid t_has t_get s (c : Cache) :
  cache_valid c -> screen_valid s ->
  screen_valid (fst (fst (loadInitialData_call t_has t_get s c))).
Proof.
  intros Hc Hs. unfold loadInitialData_call.
  pose proof (isCacheValid_keeps_cache t_has c) as Hk.
  destruct (isCacheValid t_has c) as [valid c1]. cbn [snd] in Hk. subst c1.
  destruct valid; [| exact Hs].
  pose proof (loadFromCache_valid t_get c Hc) as Hv.
  destruct (loadFromCache t_get c) as [l c2].
  destruct (0 <? length l)%nat; [exact Hv | exact Hs].
Qed.

Lemma resume_cache_move p net now s (c : Cache) al :
  cache_move c (snd (fst (resume p net now s c al))).
Proof.
  destruct p as [| | pageNum]; unfold resume.
  - unfold loadInitialData_resume.
    pose proof (fetchNews_cache_move 1 true net now c) as Hm.
    destruct (fetchNews 1 true net now c) as [[msg | l] c1] eqn:E;
      [| exact Hm].
    assert (c1 = c) as ->.
    { pose proof (fetchNews_rejected 1 true net now c msg) as Hr.
      rewrite E in Hr. specialize (Hr eq_refl 1 true now c).
      rewrite E in Hr. congruence. }
    pose proof (loadFromCache_cache_move now c) as Hm'.
    destruct (loadFromCache now c) as [l c2]. exact Hm'.
  - unfold onRefresh_resume.
    pose proof (fetchNews_cache_move 1 true net now c) as Hm.
    destruct (fetchNews 1 true net now c) as [[msg | l] c1]; exact Hm.
  - unfold loadMore_resume.
    pose proof (fetchNews_cache_move pageNum false net now c) as Hm.
    destruct (fetchNews pageNum false net now c) as [[msg | l] c1]; exact Hm.
Qed.

Lemma resume_screen_valid p net now s (c : Cache) al :
  cache_valid c -> screen_valid s ->
  screen_valid (fst (fst (resume p net now s c al))).
Proof.
  intros Hc Hs. destruct p as [| | pageNum]; unfold resume.
  - unfold loadInitialData_resume.
    pose proof (fetchNews_valid 1 true net now c) as Hv.
    pose proof (cache_valid_fetchNews c 1 true net now Hc) as Hc1.
    destruct (fetchNews 1 true net now c) as [[msg | l] c1]; cbn [fst snd] in *.
    + pose proof (loadFromCache_valid now c1 Hc1) as Hv'.
      destruct (loadFromCache now c1) as [l c2].
      destruct (0 <? length l)%nat; [exact Hv' | exact Hs].
    + exact (Hv l eq_refl).
  - unfold onRefresh_resume.
    pose proof (fetchNews_valid 1 true net now c) as Hv.
    destruct (fetchNews 1 true net now c) as [[msg | l] c1]; cbn [fst] in *.
    + exact Hs.
    + exact (Hv l eq_refl).
  - unfold loadMore_resume.
    pose proof (fetchNews_valid pageNum false net now c) as Hv.
    destruct (fetchNews pageNum false net now c) as [[msg | l] c1];
      cbn [fst] in *.
    + exact Hs.
    + destruct (length l =? 0)%nat; [exact Hs |].
      unfold screen_valid. cbn. apply List.Forall_app. split;
        [exact Hs | exact (Hv l eq_refl)].
Qed.

Lemma step_cache_move e sys sys' :
  step e sys = Some sys' -> cache_move (cache sys) (cache sys').
Proof.
  intros Hstep.
  destruct e as [t_has t_get | | | p net now | p net now | | u | u ok];
    unfold step in Hstep.
  6-8: quiet_turn Hstep; constructor.
  - pose proof (initial_call_cache_move t_has t_get initial_screen (cache sys))
      as Hm.
    destruct (loadInitialData_call t_has t_get initial_screen (cache sys))
      as [[s c] issued].
    injection Hstep as <-. exact Hm.
  - injection Hstep as <-. constructor.
  - destruct (loadMore_call (rendered sys) (screen sys)) as [s issued].
    injection Hstep as <-. constructor.
  - destruct (take_pending p (inflight sys)) as [rest|]; [| discriminate].
    pose proof (resume_cache_move p net now (screen sys) (cache sys)
                  (alerts sys)) as Hm.
    destruct (resume p net now (screen sys) (cache sys) (alerts sys))
      as [[s c] al].
    injection Hstep as <-. exact Hm.
  - destruct (take_pending p (orphans sys)) as [rest|]; [| discriminate].
    pose proof (resume_cache_move p net now initial_screen (cache sys)
                  (alerts sys)) as Hm.
    destruct (resume p net now initial_screen (cache sys) (alerts sys))
      as [[s c] al].
    injection Hstep as <-. exact Hm.
Qed.

Lemma reachable_cache_valid sys : reachable sys -> cache_valid (cache sys).
Proof.
  induction 1 as [| e sys sys' _ IH Hstep]; [apply cache_valid_empty |].
  exact (cache_valid_step e sys sys' Hstep IH).
Qed.

Lemma step_screen_valid e sys sys' :
  step e sys = Some sys' ->
  cache_valid (cache sys) -> screen_valid (screen sys) ->
  screen_valid (screen sys').
Proof.
  intros Hstep Hc Hs.
  destruct e as [t_has t_get | | | p net now | p net now | | u | u ok];
    unfold step in Hstep.
  6-8: quiet_turn Hstep; exact Hs.
  - assert (Hi : screen_valid initial_screen) by constructor.
    pose proof (initial_call_screen_valid t_has t_get initial_screen
                  (cache sys) Hc Hi) as Hv.
    destruct (loadInitialData_call t_has t_get initial_screen (cache sys))
      as [[s c] issued].
    injection Hstep as <-. exact Hv.
  - injection Hstep as <-. exact Hs.
  - unfold loadMore_call in Hstep.
    destruct (loadingMore (rendered sys) || negb (hasMore (rendered sys)));
      injection Hstep as <-; exact Hs.
  - destruct (take_pending p (inflight sys)) as [rest|]; [| discriminate].
    pose proof (resume_screen_valid p net now (screen sys) (cache sys)
                  (alerts sys) Hc Hs) as Hv.
    destruct (resume p net now (screen sys) (cache sys) (alerts sys))
      as [[s c] al].
    injection Hstep as <-. exact Hv.
  - destruct (take_pending p (orphans sys)) as [rest|]; [| discriminate].
    destruct (resume p net now initial_screen (cache sys) (alerts sys))
      as [[s c] al].
    injection Hstep as <-. exact Hs.
Qed.

(** ** Invariants of the running program *)

(** X6. Whatever the program has done since its start, every article
    in the list on the screen has a title and a description that are
    present, non-empty and different from '[Removed]': the list is
    only ever filled from a filtered page or from the cache. *)
Theorem shown_articles_are_valid (sys : Sys) :
  reachable sys ->
  forall a, List.In a (articles (screen sys)) ->
    exists t d,
      title a = Some t /\ description a = Some d
      /\ t <> "" /\ d <> "" /\ t <> "[Removed]" /\ d <> "[Removed]".
Proof.
  intros Hr.
  assert (Hs : screen_valid (screen sys)).
  { induction Hr as [| e sys sys' Hr IH Hstep]; [constructor |].
    exact (step_screen_valid e sys sys' Hstep (reachable_cache_valid sys Hr) IH). }
  intros a Ha. apply valid_article_spec.
  unfold screen_valid in Hs. rewrite List.Forall_forall in Hs. exact (Hs a Ha).
Qed.

Lemma shown_articles_are_valid_witness :
  exists t d,
    title (sample_article "Headline") = Some t
    /\ description (sample_article "Headline") = Some d
    /\ t <> "" /\ d <> "" /\ t <> "[Removed]" /\ d <> "[Removed]".
Proof.
  apply (shown_articles_are_valid sample_ready sample_ready_reachable).
  left. reflexivity.
Defined.

(** X7. The program keeps a single cache key: in every reachable state
    no key other than 'articles' has an entry. *)
Theorem cache_has_one_key (sys : Sys) :
  reachable sys ->
  forall key, key <> "articles" -> cache sys !! key = None.
Proof.
  induction 1 as [| e sys sys' _ IH Hstep]; intros key Hne.
  - apply lookup_empty.
  - destruct (step_cache_move e sys sys' Hstep) as [| | l now _].
    + exact (IH key Hne).
    + rewrite lookup_delete_ne by congruence. exact (IH key Hne).
    + rewrite lookup_insert_ne by congruence. exact (IH key Hne).
Qed.

Lemma cache_has_one_key_witness :
  "weather" <> "articles" /\ cache sample_ready !! "weather" = None.
Proof.
  assert (Hne : "weather" <> "articles") by discriminate.
  split; [exact Hne |].
  exact (cache_has_one_key sample_ready sample_ready_reachable "weather" Hne).
Defined.

Lemma initial_call_flags t_has t_get (c : Cache) :
  let r := loadInitialData_call t_has t_get initial_screen c in
  loading (fst (fst r)) = snd r /\ refreshing (fst (fst r)) = false.
Proof.
  cbn zeta. unfold loadInitialData_call.
  destruct (isCacheValid t_has c) as [[] c1]; [| split; reflexivity].
  destruct (loadFromCache t_get c1) as [l c2].
  destruct (0 <? length l)%nat; split; reflexivity.
Qed.

Lemma resume_flags p net now s (c : Cache) al :
  let s' := fst (fst (resume p net now s c al)) in
  loading s' = (if is_init p then false else loading s)
  /\ refreshing s' = (if is_refresh p then false else refreshing s).
Proof.
  cbn zeta. destruct p as [| | pageNum]; unfold resume; cbn [is_init is_refresh].
  - unfold loadInitialData_resume.
    destruct (fetchNews 1 true net now c) as [[msg | l] c1];
      [| split; reflexivity].
    destruct (loadFromCache now c1) as [l c2].
    destruct (0 <? length l)%nat; split; reflexivity.
  - unfold onRefresh_resume.
    destruct (fetchNews 1 true net now c) as [[msg | l] c1]; split; reflexivity.
  - unfold loadMore_resume.
    destruct (fetchNews pageNum false net now c) as [[msg | l] c1];
      [split; reflexivity |].
    destruct (length l =? 0)%nat; split; reflexivity.
Qed.

Lemma flags_tracked_step e sys sys' :
  step e sys = Some sys' -> flags_tracked sys -> flags_tracked sys'.
Proof.
  unfold flags_tracked. intros Hstep [Hinit Hrefr].
  destruct e as [t_has t_get | | | p net now | p net now | | u | u ok];
    unfold step in Hstep.
  6-8: quiet_turn Hstep; split; assumption.
  - destruct (initial_call_flags t_has t_get (cache sys)) as [Hl Hf].
    destruct (loadInitialData_call t_has t_get initial_screen (cache sys))
      as [[s c] issued].
    injection Hstep as <-. cbn in *. rewrite Hl, Hf.
    split; [destruct issued; reflexivity | discriminate].
  - injection Hstep as <-. cbn.
    rewrite !List.filter_app, !List.length_app. cbn. split; lia.
  - unfold loadMore_call in Hstep.
    destruct (loadingMore (rendered sys) || negb (hasMore (rendered sys)));
      injection Hstep as <-; cbn; [split; assumption |].
    rewrite !List.filter_app, !List.length_app. cbn.
    split; [lia |]. intros H. specialize (Hrefr H). lia.
  - destruct (take_pending p (inflight sys)) as [rest|] eqn:Etake;
      [| discriminate].
    destruct (resume_flags p net now (screen sys) (cache sys) (alerts sys))
      as [Hl Hf].
    destruct (resume p net now (screen sys) (cache sys) (alerts sys))
      as [[s c] al].
    injection Hstep as <-. cbn in *. rewrite Hl, Hf.
    pose proof (take_pending_count is_init _ _ _ Etake) as Ci.
    pose proof (take_pending_count is_refresh _ _ _ Etake) as Cr.
    split.
    + destruct p; cbn in *; [| lia | lia].
      destruct (loading (screen sys)); lia.
    + destruct p; cbn in *; [| discriminate |];
        intros H; specialize (Hrefr H); lia.
  - destruct (take_pending p (orphans sys)) as [rest|]; [| discriminate].
    destruct (resume p net now initial_screen (cache sys) (alerts sys))
      as [[s c] al].
    injection Hstep as <-. cbn. split; assumption.
Qed.

(** X8. The spinners tell the truth about the requests of the mounted
    screen: in every reachable state the full-screen loading indicator
    is on exactly when the request of the initial load is in flight,
    there is never more than one such request, and the pull-to-refresh
    spinner is on only while some refresh request is in flight. *)
Theorem spinners_track_requests (sys : Sys) :
  reachable sys ->
  (loading (screen sys) = true <-> List.In PInit (inflight sys))
  /\ (length (List.filter is_init (inflight sys)) <= 1)%nat
  /\ (refreshing (screen sys) = true -> List.In PRefresh (inflight sys)).
Proof.
  intros Hr.
  assert (Hinv : flags_tracked sys).
  { induction Hr as [| e sys sys' _ IH Hstep]; [split; [reflexivity | discriminate] |].
    exact (flags_tracked_step e sys sys' Hstep IH). }
  destruct Hinv as [Hinit Hrefr]. split; [split |].
  - intros Hl. rewrite Hl in Hinit.
    destruct (count_positive_In is_init (inflight sys)) as (p & Hin & Hp);
      [lia |].
    destruct p; try discriminate. exact Hin.
  - intros Hin. pose proof (In_count_positive is_init _ PInit Hin eq_refl).
    destruct (loading (screen sys)); [reflexivity | lia].
  - split; [destruct (loading (screen sys)); lia |].
    intros H. destruct (count_positive_In is_refresh (inflight sys) (Hrefr H))
      as (p & Hin & Hp).
    destruct p; try discriminate. exact Hin.
Qed.

Lemma spinners_track_requests_witness :
  (loading (screen sample_loading_more) = true
   <-> List.In PInit (inflight sample_loading_more))
  /\ (length (List.filter is_init (inflight sample_loading_more)) <= 1)%nat
  /\ (refreshing (screen sample_loading_more) = true ->
      List.In PRefresh (inflight sample_loading_more)).
Proof.
  exact (spinners_track_requests sample_loading_more
           sample_loading_more_reachable).
Defined.

Lemma resume_page p net now s (c : Cache) al :
  1 <= page s -> 1 <= page (fst (fst (resume p net now s c al))).
Proof.
  intros Hp. destruct p as [| | pageNum]; unfold resume.
  - unfold loadInitialData_resume.
    destruct (fetchNews 1 true net now c) as [[msg | l] c1]; [| cbn; lia].
    destruct (loadFromCache now c1) as [l c2].
    destruct (0 <? length l)%nat; exact Hp.
  - unfold onRefresh_resume.
    destruct (fetchNews 1 true net now c) as [[msg | l] c1];
      [exact Hp | cbn; lia].
  - unfold loadMore_resume.
    destruct (fetchNews pageNum false net now c) as [[msg | l] c1];
      [exact Hp |].
    destruct (length l =? 0)%nat; cbn; [exact Hp | lia].
Qed.

Lemma initial_call_page t_has t_get (c : Cache) :
  1 <= page (fst (fst (loadInitialData_call t_has t_get initial_screen c))).
Proof.
  unfold loadInitialData_call.
  destruct (isCacheValid t_has c) as [[] c1]; [| cbn; lia].
  destruct (loadFromCache t_get c1) as [l c2].
  destruct (0 <? length l)%nat; cbn; lia.
Qed.

Lemma pages_positive_step e sys sys' :
  step e sys = Some sys' -> pages_positive sys -> pages_positive sys'.
Proof.
  unfold pages_positive. intros Hstep (Hp & Hr & Hfl).
  destruct e as [t_has t_get | | | p net now | p net now | | u | u ok];
    unfold step in Hstep.
  6-8: quiet_turn Hstep; repeat split; assumption.
  - pose proof (initial_call_page t_has t_get (cache sys)) as Hp'.
    destruct (loadInitialData_call t_has t_get initial_screen (cache sys))
      as [[s c] issued].
    injection Hstep as <-. cbn in *. split; [exact Hp' |]. split; [lia |].
    intros pageNum Hin. destruct issued; cbn in Hin; [| destruct Hin].
    destruct Hin as [Heq | []]. discriminate.
  - injection Hstep as <-. cbn. split; [exact Hp |]. split; [exact Hr |].
    intros pageNum Hin. apply List.in_app_or in Hin as [Hin | [Heq | []]];
      [exact (Hfl _ Hin) | discriminate].
  - unfold loadMore_call in Hstep.
    destruct (loadingMore (rendered sys) || negb (hasMore (rendered sys)));
      injection Hstep as <-; cbn; [repeat split; assumption |].
    split; [exact Hp |]. split; [exact Hr |].
    intros pageNum Hin. apply List.in_app_or in Hin as [Hin | [Heq | []]];
      [exact (Hfl _ Hin) | injection Heq as <-; exact Hr].
  - destruct (take_pending p (inflight sys)) as [rest|] eqn:Etake;
      [| discriminate].
    pose proof (resume_page p net now (screen sys) (cache sys) (alerts sys) Hp)
      as Hp'.
    destruct (resume p net now (screen sys) (cache sys) (alerts sys))
      as [[s c] al].
    injection Hstep as <-. cbn in *. split; [exact Hp' |]. split; [exact Hr |].
    intros pageNum Hin. exact (Hfl _ (take_pending_sub _ _ _ _ Etake Hin)).
  - destruct (take_pending p (orphans sys)) as [rest|]; [| discriminate].
    destruct (resume p net now initial_screen (cache sys) (alerts sys))
      as [[s c] al].
    injection Hstep as <-. cbn. repeat split; assumption.
Qed.

(** X9. Page numbers never drop below 1: in every reachable state the
    cursor [page] is at least 1, and so is the page number of every
    load-more request in flight. *)
Theorem page_numbers_start_at_one (sys : Sys) :
  reachable sys ->
  1 <= page (screen sys)
  /\ forall pageNum, List.In (PMore pageNum) (inflight sys) -> 1 <= pageNum.
Proof.
  intros Hr.
  assert (Hinv : pages_positive sys).
  { induction Hr as [| e sys sys' _ IH Hstep].
    - split; [cbn; lia |]. split; [cbn; lia | intros pageNum []].
    - exact (pages_positive_step e sys sys' Hstep IH). }
  destruct Hinv as (Hp & _ & Hfl). split; assumption.
Qed.

Lemma page_numbers_start_at_one_witness :
  1 <= page (screen sample_loading_more)
  /\ forall pageNum,
       List.In (PMore pageNum) (inflight sample_loading_more) -> 1 <= pageNum.
Proof.
  exact (page_numbers_start_at_one sample_loading_more
           sample_loading_more_reachable).
Defined.

(** ** Load-more and refresh, when the request succeeds *)

Lemma filter_valid_nil_length (l : list Article) :
  (length l =? 0)%nat = match l with [] => true | _ => false end.
Proof. destruct l; reflexivity. Qed.

(** X10. A load-more never writes the cache: neither the call nor the
    end of its request, whatever the outcome and whatever the page
    number (page 1 included), changes the cache; the same holds when
    the request ends after its screen was unmounted. *)
Theorem load_more_never_writes_cache (sys sys' : Sys) :
  (step LoadMoreCall sys = Some sys' -> cache sys' = cache sys)
  /\ (forall pageNum net now,
        step (Resolve (PMore pageNum) net now) sys = Some sys' ->
        cache sys' = cache sys)
  /\ (forall pageNum net now,
        step (OrphanResolve (PMore pageNum) net now) sys = Some sys' ->
        cache sys' = cache sys).
Proof.
  assert (Hres : forall pageNum net now s al,
            snd (fst (loadMore_resume pageNum net now s (cache sys) al))
            = cache sys).
  { intros pageNum net now s al. unfold loadMore_resume.
    pose proof (fetchNews_plain_keeps_cache pageNum net now (cache sys)) as Hk.
    destruct (fetchNews pageNum false net now (cache sys)) as [[msg | l] c1];
      exact Hk. }
  split; [| split].
  - unfold step.
    destruct (loadMore_call (rendered sys) (screen sys)) as [s issued].
    intros [= <-]. reflexivity.
  - intros pageNum net now. unfold step, resume.
    destruct (take_pending (PMore pageNum) (inflight sys)) as [rest|]; [| discriminate].
    specialize (Hres pageNum net now (screen sys) (alerts sys)).
    destruct (loadMore_resume pageNum net now (screen sys) (cache sys)
                (alerts sys)) as [[s c] al].
    intros [= <-]. exact Hres.
  - intros pageNum net now. unfold step, resume.
    destruct (take_pending (PMore pageNum) (orphans sys)) as [rest|]; [| discriminate].
    specialize (Hres pageNum net now initial_screen (alerts sys)).
    destruct (loadMore_resume pageNum net now initial_screen (cache sys)
                (alerts sys)) as [[s c] al].
    intros [= <-]. exact Hres.
Qed.

Lemma load_more_never_writes_cache_witness :
  exists sys sys',
    run [Mount 0 0; Resolve PInit (Threw None) 1000; LoadMoreCall] boot = Some sys
    /\ step (Resolve (PMore 1) (Json "ok" None (sample_page 20)) 2000) sys
       = Some sys'
    /\ cache sys' = cache sys
    /\ cache sys' !! "articles" = None.
Proof.
  eexists _, _. split; [reflexivity |]. split; [reflexivity |].
  split; [| reflexivity].
  match goal with
  | |- cache ?b = cache ?a =>
      exact (proj1 (proj2 (load_more_never_writes_cache a b)) 1
               (Json "ok" None (sample_page 20)) 2000 eq_refl)
  end.
Defined.

(** X11. When a load-more request succeeds, the filtered page is added
    at the end of the list on the screen, which keeps its earlier
    items in place; [page] advances by one unless the filtered page is
    empty; [hasMore] tells whether the filtered page has exactly twenty
    items; the footer spinner goes off and no alert is raised. *)
Theorem load_more_appends (sys sys' : Sys) (pageNum : Z) (m : option string)
    (arts : list Article) (now : Z) :
  step (Resolve (PMore pageNum) (Json "ok" m arts) now) sys = Some sys' ->
  articles (screen sys') = (articles (screen sys) ++ filter_valid arts)%list
  /\ page (screen sys')
     = (match filter_valid arts with
        | [] => page (screen sys)
        | _ => page (screen sys) + 1
        end)
  /\ hasMore (screen sys') = (length (filter_valid arts) =? PAGE_SIZE)%nat
  /\ loadingMore (screen sys') = false
  /\ error (screen sys') = error (screen sys)
  /\ alerts sys' = alerts sys.
Proof.
  unfold step, resume, loadMore_resume.
  destruct (take_pending (PMore pageNum) (inflight sys)) as [rest|]; [| discriminate].
  rewrite fetchNews_ok, filter_valid_nil_length.
  destruct (filter_valid arts) as [|a0 l0] eqn:E; intros [= <-]; cbn.
  - rewrite List.app_nil_r. repeat split.
  - repeat split.
Qed.

Lemma load_more_appends_witness :
  exists sys',
    step (Resolve (PMore 2)
            (Json "ok" None (removed_article :: sample_page 3)) 5000)
         sample_loading_more = Some sys'
    /\ articles (screen sys') = (sample_page 20 ++ sample_page 3)%list
    /\ page (screen sys') = 3
    /\ hasMore (screen sys') = false.
Proof.
  eexists. split; [reflexivity |].
  match goal with
  | |- articles (screen ?b) = _ /\ _ =>
      destruct (load_more_appends sample_loading_more b 2 None
                  (removed_article :: sample_page 3) 5000 eq_refl)
        as (Ha & Hp & Hh & _)
  end.
  split; [exact Ha |]. split; [exact Hp | exact Hh].
Defined.

(** X12. When a refresh request succeeds, the filtered page replaces
    the list on the screen (nothing of the old list is kept), [page]
    is 2, [hasMore] tells whether the filtered page has exactly twenty
    items, the cache entry 'articles' is overwritten with this page
    and the time of the write, and no alert is raised. *)
Theorem refresh_replaces (sys sys' : Sys) (m : option string)
    (arts : list Article) (now : Z) :
  step (Resolve PRefresh (Json "ok" m arts) now) sys = Some sys' ->
  articles (screen sys') = filter_valid arts
  /\ page (screen sys') = 2
  /\ hasMore (screen sys') = (length (filter_valid arts) =? PAGE_SIZE)%nat
  /\ refreshing (screen sys') = false
  /\ cache sys'
     = <["articles" := SimpleCache.mkEntry (filter_valid arts) now]> (cache sys)
  /\ alerts sys' = alerts sys.
Proof.
  unfold step, resume, onRefresh_resume.
  destruct (take_pending PRefresh (inflight sys)) as [rest|]; [| discriminate].
  rewrite fetchNews_ok. intros [= <-]. cbn. repeat split.
Qed.

Lemma refresh_replaces_witness :
  exists sys1 sys',
    step RefreshCall sample_ready = Some sys1
    /\ step (Resolve PRefresh (Json "ok" None (sample_page 4)) 9000) sys1
       = Some sys'
    /\ articles (screen sys') = sample_page 4
    /\ hasMore (screen sys') = false
    /\ cache sys' !! "articles" = Some (SimpleCache.mkEntry (sample_page 4) 9000).
Proof.
  eexists _, _. split; [reflexivity |]. split; [reflexivity |].
  match goal with
  | |- articles (screen ?b) = _ /\ _ =>
      destruct (refresh_replaces sample_refreshing
                  b None (sample_page 4) 9000 eq_refl)
        as (Ha & _ & Hh & _ & Hc & _)
  end.
  split; [exact Ha |]. split; [exact Hh |]. rewrite Hc. reflexivity.
Defined.

(** ** Mounting the screen *)

(** X13. A page that the initial load or a refresh has fetched is what
    the next mount shows, as long as the page is not empty and the
    mount reads the cache within [CACHE_DURATION] of the write: the
    mount issues no request, shows exactly that page with [page = 2],
    leaves the cache as it is, and starts with [hasMore = true]
    whatever the length of the page. *)
Theorem fetched_page_survives_remount (sys sys1 : Sys) (p : Pending)
    (m : option string) (arts : list Article) (now t_has t_get : Z) :
  is_more p = false ->
  filter_valid arts <> [] ->
  step (Resolve p (Json "ok" m arts) now) sys = Some sys1 ->
  t_has - now <= CACHE_DURATION ->
  t_get - now <= CACHE_DURATION ->
  exists sys2,
    step (Mount t_has t_get) sys1 = Some sys2
    /\ articles (screen sys2) = filter_valid arts
    /\ page (screen sys2) = 2
    /\ hasMore (screen sys2) = true
    /\ loading (screen sys2) = false
    /\ inflight sys2 = []
    /\ cache sys2 = cache sys1.
Proof.
  intros Hp Hne Hstep Hhas Hget.
  set (e := SimpleCache.mkEntry (filter_valid arts) now).
  assert (Hc : cache sys1 !! "articles" = Some e).
  { unfold step in Hstep.
    destruct (take_pending p (inflight sys)) as [rest|]; [| discriminate].
    destruct p as [| | pageNum]; [| | discriminate]; unfold resume in Hstep.
    - unfold loadInitialData_resume in Hstep. rewrite fetchNews_ok in Hstep.
      injection Hstep as <-. apply lookup_insert_eq.
    - unfold onRefresh_resume in Hstep. rewrite fetchNews_ok in Hstep.
      injection Hstep as <-. apply lookup_insert_eq. }
  unfold step, loadInitialData_call, isCacheValid.
  rewrite (has_present _ _ _ _ Hc).
  destruct (Z.leb_spec (t_has - SimpleCache.timestamp e) CACHE_DURATION);
    [| cbn in *; lia].
  rewrite (loadFromCache_fresh t_get _ e Hc Hget).
  rewrite (nonempty_length (SimpleCache.data e) Hne).
  eexists. split; [reflexivity |]. cbn. repeat split.
Qed.

Lemma fetched_page_survives_remount_witness :
  exists sys1 sys2,
    step (Resolve PRefresh (Json "ok" None (sample_page 4)) 9000)
         sample_refreshing = Some sys1
    /\ step (Mount 309000 309000) sys1 = Some sys2
    /\ articles (screen sys2) = sample_page 4
    /\ hasMore (screen sys2) = true
    /\ inflight sys2 = [].
Proof.
  eexists.
  match goal with
  | |- exists sys2, ?st = Some ?s1 /\ _ =>
      assert (Hstep : st = Some s1) by reflexivity;
      destruct (fetched_page_survives_remount _ s1 PRefresh None
                  (sample_page 4) 9000 309000 309000 eq_refl
                  ltac:(discriminate) Hstep
                  ltac:(unfold CACHE_DURATION; lia)
                  ltac:(unfold CACHE_DURATION; lia))
        as (sys2 & Hm & Ha & _ & Hh & _ & Hi & _)
  end.
  exists sys2. split; [exact Hstep |]. split; [exact Hm |].
  split; [exact Ha |]. split; [exact Hh | exact Hi].
Defined.

(** X14. A mount is served from the cache exactly when the entry
    'articles' exists, is fresh at the [has] and at the [get] (age at
    most [CACHE_DURATION] at both), and holds a non-empty list.  In
    every other case (no entry, a stale one, one that expires between
    the two reads, an empty cached list) the mount issues the request
    for page 1 and shows the loading indicator over an empty list. *)
Theorem mount_uses_cache_iff_usable (sys sys' : Sys) (t_has t_get : Z) :
  step (Mount t_has t_get) sys = Some sys' ->
  (inflight sys' = [] \/ inflight sys' = [PInit])
  /\ (inflight sys' = [] <->
      exists e, cache sys !! "articles" = Some e
                /\ t_has - SimpleCache.timestamp e <= CACHE_DURATION
                /\ t_get - SimpleCache.timestamp e <= CACHE_DURATION
                /\ SimpleCache.data e <> [])
  /\ (inflight sys' = [PInit] ->
      loading (screen sys') = true /\ articles (screen sys') = []
      /\ error (screen sys') = None /\ page (screen sys') = 1).
Proof.
  unfold step, loadInitialData_call, isCacheValid.
  destruct (cache sys !! "articles") as [e|] eqn:He.
  - rewrite (has_present _ _ _ _ He).
    destruct (Z.leb_spec (t_has - SimpleCache.timestamp e) CACHE_DURATION)
      as [Hh | Hh].
    + destruct (Z.le_gt_cases (t_get - SimpleCache.timestamp e) CACHE_DURATION)
        as [Hg | Hg].
      * rewrite (loadFromCache_fresh t_get _ e He Hg).
        destruct (SimpleCache.data e) as [|a l] eqn:Ed; cbn [length Nat.ltb Nat.leb];
          intros [= <-]; cbn.
        -- split; [now right |]. split; [| repeat split].
           split; [discriminate |]. intros (e' & [= <-] & _ & _ & Hne).
           congruence.
        -- split; [now left |]. split; [| discriminate].
           split; [| reflexivity]. intros _. exists e.
           rewrite Ed. repeat split; try assumption. discriminate.
      * rewrite (loadFromCache_expired t_get _ e He Hg). cbn.
        intros [= <-]. cbn. split; [now right |]. split; [| repeat split].
        split; [discriminate |]. intros (e' & [= <-] & _ & Hg' & _). lia.
    + intros [= <-]. cbn. split; [now right |]. split; [| repeat split].
      split; [discriminate |]. intros (e' & [= <-] & Hh' & _). lia.
  - rewrite (has_absent _ _ _ He). intros [= <-]. cbn.
    split; [now right |]. split; [| repeat split].
    split; [discriminate |]. intros (e' & [=] & _).
Qed.

Lemma mount_uses_cache_iff_usable_witness :
  let empty_cached : Cache := {[ "articles" := SimpleCache.mkEntry [] 1000 ]} in
  let sys := {| screen := initial_screen; rendered := initial_screen;
                cache := empty_cached; inflight := []; orphans := [];
                opening := []; alerts := [] |} in
  exists sys',
    step (Mount 2000 2000) sys = Some sys'
    /\ inflight sys' = [PInit]
    /\ loading (screen sys') = true.
Proof.
  cbn zeta. eexists.
  match goal with
  | |- ?st = Some ?b /\ _ =>
      assert (Hstep : st = Some b) by reflexivity;
      destruct (mount_uses_cache_iff_usable _ b 2000 2000 Hstep)
        as (_ & _ & Hl)
  end.
  split; [exact Hstep |]. split; [reflexivity |].
  exact (proj1 (Hl eq_refl)).
Defined.

(** ** Failures *)

Lemma or_else_nonempty (a : option string) (d : string) :
  d <> "" -> or_else a d <> "".
Proof.
  intros Hd. unfold or_else, truthy. destruct a as [s|]; [| exact Hd].
  destruct (String.eqb_spec s ""); cbn; assumption.
Qed.

Lemma fetchNews_message_nonempty pageNum isRefresh net now (c : Cache) msg :
  fst (fetchNews pageNum isRefresh net now c) = inl msg -> msg <> "".
Proof.
  unfold fetchNews. destruct net as [m | status m arts]; cbn [fst].
  - intros [= <-]. now apply or_else_nonempty.
  - destruct (negb (String.eqb status "ok")); cbn [fst]; [| discriminate].
    intros [= <-].
    apply (or_else_nonempty (Some (or_else m "Failed to fetch news"))
             "Network error occurred").
    discriminate.
Qed.

Lemma truthy_nonempty (s : string) : s <> "" -> truthy (Some s) = true.
Proof. intros H. cbn. now apply negb_true_iff, String.eqb_neq. Qed.

(** X15. Every failed request is reported, with a text that is never
    empty.  A failed initial load puts a banner on the screen (the
    request's message, or the offline notice when the fallback found
    cached articles) and raises no alert; a failed refresh puts its
    message in the banner and raises the alert 'Refresh Failed' with
    the same message; a failed load-more leaves the banner as it was
    and raises the alert 'Error' / 'Failed to load more articles'. *)
Theorem failures_are_reported (sys sys' : Sys) (p : Pending)
    (net : NetOutcome) (now : Z) (msg : string) :
  step (Resolve p net now) sys = Some sys' ->
  fetched p net now (cache sys) = inl msg ->
  msg <> ""
  /\ match p with
     | PInit =>
         banner_shown (screen sys') = true
         /\ (error (screen sys') = Some msg
             \/ error (screen sys')
                = Some "Showing cached articles (offline mode)")
         /\ alerts sys' = alerts sys
     | PRefresh =>
         banner_shown (screen sys') = true
         /\ error (screen sys') = Some msg
         /\ alerts sys' = (alerts sys ++ [("Refresh Failed", msg)])%list
     | PMore _ =>
         error (screen sys') = error (screen sys)
         /\ alerts sys'
            = (alerts sys ++ [("Error", "Failed to load more articles")])%list
     end.
Proof.
  unfold fetched. intros Hstep Hfail.
  pose proof (fetchNews_message_nonempty _ _ _ _ _ _ Hfail) as Hne.
  split; [exact Hne |]. unfold step in Hstep.
  destruct (take_pending p (inflight sys)) as [rest|]; [| discriminate].
  destruct p as [| | pageNum]; cbn in Hfail; unfold resume in Hstep.
  - unfold loadInitialData_resume in Hstep.
    rewrite (fetchNews_rejected _ _ _ _ _ _ Hfail 1 true now (cache sys))
      in Hstep.
    destruct (loadFromCache now (cache sys)) as [l c2].
    destruct (0 <? length l)%nat; injection Hstep as <-;
      unfold banner_shown; cbn [screen error setLoading setError setArticles alerts].
    + split; [reflexivity |]. split; [now right | reflexivity].
    + split; [now apply truthy_nonempty |]. split; [now left | reflexivity].
  - rewrite (refresh_resume_failed _ _ _ _ _ _ Hfail) in Hstep.
    injection Hstep as <-. unfold banner_shown. cbn.
    split; [now apply truthy_nonempty |]. split; reflexivity.
  - rewrite (more_resume_failed _ _ _ _ _ _ _ Hfail) in Hstep.
    injection Hstep as <-. cbn. split; reflexivity.
Qed.

Lemma failures_are_reported_witness :
  exists sys1 sys',
    step RefreshCall sample_ready = Some sys1
    /\ step (Resolve PRefresh (Json "error" None []) 7000) sys1 = Some sys'
    /\ fetched PRefresh (Json "error" None []) 7000 (cache sys1)
       = inl "Failed to fetch news"
    /\ banner_shown (screen sys') = true
    /\ alerts sys' = [("Refresh Failed", "Failed to fetch news")].
Proof.
  eexists. eexists. split; [reflexivity |].
  match goal with
  | |- ?st = Some ?b /\ _ =>
      assert (Hstep : st = Some b) by reflexivity;
      destruct (failures_are_reported _ b PRefresh (Json "error" None []) 7000
                  "Failed to fetch news" Hstep eq_refl)
        as (_ & Hb & _ & Ha)
  end.
  split; [exact Hstep |]. split; [reflexivity |].
  split; [exact Hb | exact Ha].
Defined.

Lemma resume_alerts p net now s (c : Cache) al :
  let al' := snd (resume p net now s c al) in
  al' = al
  \/ (p <> PInit
      /\ exists msg a, fetched p net now c = inl msg /\ al' = (al ++ [a])%list).
Proof.
  cbn zeta. unfold fetched.
  destruct p as [| | pageNum]; unfold resume; cbn [request_of fst snd].
  - destruct (loadInitialData_resume net now s c). now left.
  - unfold onRefresh_resume.
    destruct (fetchNews 1 true net now c) as [[msg | l] c1]; [| now left].
    right. split; [discriminate |]. now exists msg, ("Refresh Failed", msg).
  - unfold loadMore_resume.
    destruct (fetchNews pageNum false net now c) as [[msg | l] c1]; [| now left].
    right. split; [discriminate |].
    now exists msg, ("Error", "Failed to load more articles").
Qed.

(** X16. Alerts are raised by refresh and load-more requests that
    fail and by article links that fail to open, and by nothing else:
    a turn of the event loop either leaves the alerts raised so far as
    they are, or it is the end of a refresh or load-more request that
    failed, or the rejection of [Linking.openURL], and adds one alert
    after them.  In particular no mount, no initial load, no re-render,
    no press and no successful request raises one. *)
Theorem alerts_only_on_failures (e : Event) (sys sys' : Sys) :
  step e sys = Some sys' ->
  alerts sys' = alerts sys
  \/ (exists p net now msg a,
        (e = Resolve p net now \/ e = OrphanResolve p net now)
        /\ p <> PInit
        /\ fetched p net now (cache sys) = inl msg
        /\ alerts sys' = (alerts sys ++ [a])%list)
  \/ (exists u,
        e = OpenSettled u false
        /\ alerts sys'
           = (alerts sys ++ [("Error", "Could not open article")])%list).
Proof.
  intros Hstep.
  destruct e as [t_has t_get | | | p net now | p net now | | u | u ok];
    unfold step in Hstep.
  - destruct (loadInitialData_call t_has t_get initial_screen (cache sys))
      as [[s c] issued].
    injection Hstep as <-. now left.
  - injection Hstep as <-. now left.
  - destruct (loadMore_call (rendered sys) (screen sys)) as [s issued].
    injection Hstep as <-. now left.
  - destruct (take_pending p (inflight sys)) as [rest|]; [| discriminate].
    pose proof (resume_alerts p net now (screen sys) (cache sys) (alerts sys))
      as Hal.
    destruct (resume p net now (screen sys) (cache sys) (alerts sys))
      as [[s c] al].
    injection Hstep as <-. cbn in *.
    destruct Hal as [-> | (Hp & msg & a & Hf & ->)]; [now left | right; left].
    exists p, net, now, msg, a. auto.
  - destruct (take_pending p (orphans sys)) as [rest|]; [| discriminate].
    pose proof (resume_alerts p net now initial_screen (cache sys) (alerts sys))
      as Hal.
    destruct (resume p net now initial_screen (cache sys) (alerts sys))
      as [[s c] al].
    injection Hstep as <-. cbn in *.
    destruct Hal as [-> | (Hp & msg & a & Hf & ->)]; [now left | right; left].
    exists p, net, now, msg, a. auto.
  - injection Hstep as <-. now left.
  - quiet_turn Hstep. now left.
  - quiet_turn Hstep. cbn. destruct ok; [now left | right; right].
    now exists u.
Qed.

Lemma alerts_only_on_failures_witness :
  exists sys1 sys2,
    step (OpenArticle "https://example.org/story") sample_ready = Some sys1
    /\ step (OpenSettled "https://example.org/story" false) sys1 = Some sys2
    /\ alerts sys1 = alerts sample_ready
    /\ alerts sys2 = [("Error", "Could not open article")]
    /\ (alerts sys2 = alerts sys1
        \/ (exists p net now msg a,
              (OpenSettled "https://example.org/story" false = Resolve p net now
               \/ OpenSettled "https://example.org/story" false
                  = OrphanResolve p net now)
              /\ p <> PInit
              /\ fetched p net now (cache sys1) = inl msg
              /\ alerts sys2 = (alerts sys1 ++ [a])%list)
        \/ (exists u,
              OpenSettled "https://example.org/story" false
              = OpenSettled u false
              /\ alerts sys2
                 = (alerts sys1 ++ [("Error", "Could not open article")])%list)).
Proof.
  eexists. eexists.
  match goal with
  | |- ?a = Some ?s1 /\ ?b = Some ?s2 /\ _ =>
      assert (H1 : a = Some s1) by reflexivity;
      assert (H2 : b = Some s2) by reflexivity
  end.
  split; [exact H1 |]. split; [exact H2 |].
  split; [reflexivity |]. split; [reflexivity |].
  exact (alerts_only_on_failures _ _ _ H2).
Defined.



(** ** End of data *)

Lemma filter_valid_drops (l : list Article) (a : Article) :
  List.In a l -> valid_article a = false ->
  (length (filter_valid l) < length l)%nat.
Proof.
  unfold filter_valid. induction l as [|x l IH]; cbn; [intros [] |].
  intros [-> | Hin] Ha.
  - rewrite Ha. pose proof (List.filter_length_le valid_article l). lia.
  - specialize (IH Hin Ha). destruct (valid_article x); cbn; lia.
Qed.

(** X18. One invalid article is enough to end the pagination: when a
    request succeeds with a page of at most twenty articles of which
    at least one is dropped by the filter, [hasMore] is [false]
    afterwards, even if the service sent a full page of twenty. *)
Theorem invalid_article_ends_pagination (sys sys' : Sys) (p : Pending)
    (m : option string) (arts : list Article) (a : Article) (now : Z) :
  (length arts <= PAGE_SIZE)%nat ->
  List.In a arts ->
  valid_article a = false ->
  step (Resolve p (Json "ok" m arts) now) sys = Some sys' ->
  hasMore (screen sys') = false.
Proof.
  intros Hlen Hin Ha Hstep.
  pose proof (filter_valid_drops arts a Hin Ha) as Hlt.
  assert (Hneq : (length (filter_valid arts) =? PAGE_SIZE)%nat = false)
    by (apply Nat.eqb_neq; lia).
  unfold step in Hstep.
  destruct (take_pending p (inflight sys)) as [rest|]; [| discriminate].
  destruct p as [| | pageNum]; unfold resume in Hstep.
  - unfold loadInitialData_resume in Hstep. rewrite fetchNews_ok in Hstep.
    injection Hstep as <-. exact Hneq.
  - unfold onRefresh_resume in Hstep. rewrite fetchNews_ok in Hstep.
    injection Hstep as <-. exact Hneq.
  - unfold loadMore_resume in Hstep. rewrite fetchNews_ok in Hstep.
    destruct (length (filter_valid arts) =? 0)%nat; injection Hstep as <-;
      [reflexivity | exact Hneq].
Qed.

Lemma invalid_article_ends_pagination_witness :
  exists sys',
    step (Resolve (PMore 2)
            (Json "ok" None (removed_article :: sample_page 19)) 5000)
         sample_loading_more = Some sys'
    /\ length (removed_article :: sample_page 19) = 20%nat
    /\ hasMore (screen sys') = false.
Proof.
  eexists.
  match goal with
  | |- ?st = Some ?b /\ _ =>
      assert (Hstep : st = Some b) by reflexivity
  end.
  split; [exact Hstep |]. split; [reflexivity |].
  apply (invalid_article_ends_pagination sample_loading_more _ (PMore 2) None
           (removed_article :: sample_page 19) removed_article 5000).
  - unfold PAGE_SIZE. cbn. lia.
  - left. reflexivity.
  - reflexivity.
  - exact Hstep.
Defined.

(** ** List keys *)

Lemma uint_string_no_dash (d : Decimal.uint) (s1 s2 : string) :
  NilEmpty.string_of_uint d <> (s1 ++ String "-" s2)%string.
Proof.
  revert s1. induction d; intros s1; cbn;
    destruct s1 as [|c s1]; cbn; try discriminate;
    intros H; injection H as _ H; exact (IHd _ H).
Qed.

Lemma uint_string_inj (d d' : Decimal.uint) :
  NilEmpty.string_of_uint d = NilEmpty.string_of_uint d' -> d = d'.
Proof.
  intros H. pose proof (NilEmpty.usu d) as H1. rewrite H in H1.
  rewrite NilEmpty.usu in H1. congruence.
Qed.

Lemma decimal_inj (n n' : nat) : decimal n = decimal n' -> n = n'.
Proof.
  unfold decimal. intros H. apply Unsigned.to_uint_inj, uint_string_inj, H.
Qed.

Lemma key_suffix_inj (a b : string) (n n' : nat) :
  (a ++ String "-" (decimal n))%string = (b ++ String "-" (decimal n'))%string ->
  n = n'.
Proof.
  revert b. induction a as [|c a IH]; intros b; destruct b as [|c' b]; cbn.
  - intros [= H]. now apply decimal_inj.
  - intros [= _ H]. exfalso. exact (uint_string_no_dash _ _ _ H).
  - intros [= _ H]. exfalso. symmetry in H.
    exact (uint_string_no_dash _ _ _ H).
  - intros [= _ H]. exact (IH b H).
Qed.

(** X19. The keys handed to the list are pairwise distinct, whatever
    the articles: two items at different positions get different keys
    even when they carry the same URL, because the position is part of
    the key. *)
Theorem list_keys_are_distinct (l : list Article) : NoDup (list_keys l).
Proof.
  apply NoDup_alt. intros i j k Hi Hj. unfold list_keys in Hi, Hj.
  rewrite list_lookup_imap in Hi, Hj.
  destruct (l !! i) as [a|]; [| discriminate].
  destruct (l !! j) as [b|]; [| discriminate].
  cbn in Hi, Hj. injection Hi as Hi. injection Hj as Hj.
  unfold keyExtractor in Hi, Hj.
  apply (key_suffix_inj (url a) (url b)). rewrite <- Hj in Hi. exact Hi.
Qed.

Example list_keys_same_url :
  list_keys (sample_page 3)
  = ["https://example.org/story-0"; "https://example.org/story-1";
     "https://example.org/story-2"].
Proof. reflexivity. Qed.

(** * Properties of the authentication context *)

Lemma login_credentials_spec (email password : string) :
  String.eqb email "a@g.com" && String.eqb password "123456789" = true
  <-> email = "a@g.com" /\ password = "123456789".
Proof. rewrite andb_true_iff, !String.eqb_eq. reflexivity. Qed.

(** X20. [login] resolves for exactly one pair of credentials,
    'a@g.com' with '123456789'.  When it resolves the token is
    'mocked_token_123456'; when it rejects, the error is 'Invalid
    credentials' and neither the token nor the storage has changed.
    Either way [loading] is [false] at the end. *)
Theorem login_accepts_one_pair (ok : bool) (email password : string)
    (a : AuthContext.State) (st : gmap string string) :
  let r := AuthContext.login ok email password a st in
  (fst (fst r) = inr tt <-> email = "a@g.com" /\ password = "123456789")
  /\ AuthContext.loading (snd (fst r)) = false
  /\ (fst (fst r) = inr tt ->
      AuthContext.token (snd (fst r)) = Some "mocked_token_123456")
  /\ (fst (fst r) <> inr tt ->
      fst (fst r) = inl "Invalid credentials"
      /\ AuthContext.token (snd (fst r)) = AuthContext.token a
      /\ snd r = st).
Proof.
  cbn zeta. unfold AuthContext.login.
  pose proof (login_credentials_spec email password) as Hspec.
  destruct (String.eqb email "a@g.com" && String.eqb password "123456789");
    cbn [fst snd].
  - split; [split; [intros _; now apply Hspec | reflexivity] |].
    split; [reflexivity |]. split; [reflexivity | congruence].
  - split; [split; [discriminate | intros H; apply Hspec in H; discriminate] |].
    split; [reflexivity |]. split; [discriminate |].
    intros _. repeat split.
Qed.

Lemma login_accepts_one_pair_witness :
  fst (fst (AuthContext.login true "a@g.com" "123456789"
              AuthContext.initial ∅)) = inr tt
  /\ fst (fst (AuthContext.login true "a@g.com" "12345678"
                 AuthContext.initial ∅)) = inl "Invalid credentials".
Proof.
  split.
  - apply (login_accepts_one_pair true "a@g.com" "123456789"
             AuthContext.initial ∅). split; reflexivity.
  - apply (login_accepts_one_pair true "a@g.com" "12345678"
             AuthContext.initial ∅). discriminate.
Defined.

Lemma mount_reads_token (ok1 ok2 : bool) (st : gmap string string) :
  AuthContext.mount ok1 ok2 st
  = {| AuthContext.token :=
         if (ok1 || ok2) && truthy (st !! "jwt_token")
         then st !! "jwt_token" else None;
       AuthContext.loading := false |}.
Proof.
  unfold AuthContext.mount, AuthContext.loadToken.
  destruct ok1, ok2, (truthy (st !! "jwt_token")); reflexivity.
Qed.

(** X21. A successful login lets the user in at once, but it survives
    a restart of the app only if the token could be stored: starting
    from a storage without token, after a login with the right
    credentials the navigator shows the home screen; after a restart it
    shows the home screen exactly when the write to the storage had
    succeeded and at least one of the two reads at start-up succeeds,
    and otherwise the login screen. *)
Theorem login_survives_restart_iff_stored (ok ok1 ok2 : bool)
    (a : AuthContext.State) (st : gmap string string) :
  st !! "jwt_token" = None ->
  let r := AuthContext.login ok "a@g.com" "123456789" a st in
  RootNavigator (snd (fst r)) = Some HomeFirst
  /\ RootNavigator (AuthContext.mount ok1 ok2 (snd r))
     = Some (if ok && (ok1 || ok2) then HomeFirst else LoginFirst).
Proof.
  intros Hst. cbn zeta. unfold AuthContext.login. cbn [String.eqb Ascii.eqb
    Bool.eqb andb fst snd].
  split; [reflexivity |]. rewrite mount_reads_token.
  unfold AuthContext.storeToken, RootNavigator. cbn [AuthContext.loading
    AuthContext.token].
  destruct ok.
  - rewrite lookup_insert_eq. destruct ok1, ok2; reflexivity.
  - rewrite Hst. destruct ok1, ok2; reflexivity.
Qed.

Lemma login_survives_restart_iff_stored_witness :
  RootNavigator
    (AuthContext.mount true true
       (snd (AuthContext.login false "a@g.com" "123456789"
               AuthContext.initial ∅))) = Some LoginFirst
  /\ RootNavigator
       (AuthContext.mount true true
          (snd (AuthContext.login true "a@g.com" "123456789"
                  AuthContext.initial ∅))) = Some HomeFirst.
Proof.
  split.
  - exact (proj2 (login_survives_restart_iff_stored false true true
                    AuthContext.initial ∅ (lookup_empty _))).
  - exact (proj2 (login_survives_restart_iff_stored true true true
                    AuthContext.initial ∅ (lookup_empty _))).
Defined.

(** X22. [logout] logs the user out only if the token could be removed
    from the storage.  When the removal succeeds the token is cleared,
    the storage no longer holds one, and the navigator shows the login
    screen, now and after any restart.  When the removal fails, token
    and storage are left as they were: a logged-in user stays logged
    in. *)
Theorem logout_needs_storage (ok ok1 ok2 : bool) (a : AuthContext.State)
    (st : gmap string string) :
  let r := AuthContext.logout ok a st in
  AuthContext.loading (fst r) = false
  /\ (ok = true ->
      AuthContext.token (fst r) = None
      /\ snd r !! "jwt_token" = None
      /\ RootNavigator (fst r) = Some LoginFirst
      /\ RootNavigator (AuthContext.mount ok1 ok2 (snd r)) = Some LoginFirst)
  /\ (ok = false ->
      AuthContext.token (fst r) = AuthContext.token a /\ snd r = st).
Proof.
  cbn zeta. unfold AuthContext.logout. destruct ok; cbn [fst snd].
  - split; [reflexivity |]. split; [| discriminate]. intros _.
    split; [reflexivity |]. split; [apply lookup_delete_eq |].
    split; [reflexivity |]. rewrite mount_reads_token, lookup_delete_eq.
    cbn [truthy]. rewrite andb_false_r. reflexivity.
  - split; [reflexivity |]. split; [discriminate |]. intros _.
    split; reflexivity.
Qed.

Lemma logout_needs_storage_witness :
  let logged_in := {| AuthContext.token := Some "mocked_token_123456";
                      AuthContext.loading := false |} in
  let st : gmap string string := {[ "jwt_token" := "mocked_token_123456" ]} in
  RootNavigator (fst (AuthContext.logout true logged_in st)) = Some LoginFirst
  /\ RootNavigator (fst (AuthContext.logout false logged_in st))
     = Some HomeFirst.
Proof.
  cbn zeta. split.
  - destruct (logout_needs_storage true true true
                {| AuthContext.token := Some "mocked_token_123456";
                   AuthContext.loading := false |}
                {[ "jwt_token" := "mocked_token_123456" ]})
      as (_ & Hok & _).
    exact (proj1 (proj2 (proj2 (Hok eq_refl)))).
  - destruct (logout_needs_storage false true true
                {| AuthContext.token := Some "mocked_token_123456";
                   AuthContext.loading := false |}
                {[ "jwt_token" := "mocked_token_123456" ]})
      as (Hl & _ & Hfail).
    destruct (Hfail eq_refl) as [Ht _].
    unfold RootNavigator. rewrite Hl, Ht. reflexivity.
Defined.

(** X23. The login form validates before it calls [login]: with an
    empty e-mail or an empty password nothing is attempted (token and
    storage untouched) and the alert 'Please enter both email and
    password' is raised; with both filled in but not the accepted pair
    the alert is 'Login Failed' / 'Invalid credentials' and the token
    is unchanged; with the accepted pair no alert is raised and the
    token is set. *)
Theorem handleLogin_cases (ok : bool) (email password : string)
    (a : AuthContext.State) (st : gmap string string) (al : Alerts) :
  let r := handleLogin ok email password a st al in
  (email = "" \/ password = "" ->
     r = (a, st, (al ++ [("Error", "Please enter both email and password")])%list))
  /\ (email <> "" -> password <> "" ->
      ~ (email = "a@g.com" /\ password = "123456789") ->
      AuthContext.token (fst (fst r)) = AuthContext.token a
      /\ snd (fst r) = st
      /\ snd r = (al ++ [("Login Failed", "Invalid credentials")])%list)
  /\ (email = "a@g.com" -> password = "123456789" ->
      AuthContext.token (fst (fst r)) = Some "mocked_token_123456"
      /\ snd r = al).
Proof.
  cbn zeta. unfold handleLogin. split; [| split].
  - intros [-> | ->]; cbn [truthy String.eqb negb orb]; [reflexivity |].
    rewrite orb_true_r. reflexivity.
  - intros He Hp Hbad.
    rewrite (truthy_nonempty _ He), (truthy_nonempty _ Hp). cbn [negb orb].
    unfold AuthContext.login.
    pose proof (login_credentials_spec email password) as Hspec.
    destruct (String.eqb email "a@g.com" && String.eqb password "123456789");
      [exfalso; apply Hbad, Hspec; reflexivity |].
    repeat split.
  - intros -> ->. repeat split.
Qed.

Lemma handleLogin_cases_witness :
  snd (handleLogin true "" "123456789" AuthContext.initial ∅ [])
    = [("Error", "Please enter both email and password")]
  /\ snd (handleLogin true "b@g.com" "123456789" AuthContext.initial ∅ [])
     = [("Login Failed", "Invalid credentials")]
  /\ snd (handleLogin true "a@g.com" "123456789" AuthContext.initial ∅ []) = [].
Proof.
  split; [| split].
  - rewrite (proj1 (handleLogin_cases true "" "123456789"
                      AuthContext.initial ∅ []) (or_introl eq_refl)).
    reflexivity.
  - apply (proj1 (proj2 (handleLogin_cases true "b@g.com" "123456789"
                           AuthContext.initial ∅ []))).
    + discriminate.
    + discriminate.
    + intros [H _]. discriminate.
  - apply (proj2 (proj2 (handleLogin_cases true "a@g.com" "123456789"
                           AuthContext.initial ∅ []))); reflexivity.
Defined.

(** * Properties of the expense tracker's backup files *)

Lemma prefix_includes (s part : string) :
  String.prefix part s = true -> includes s part = true.
Proof.
  intros H. destruct s as [|c s]; cbn [includes]; rewrite H; reflexivity.
Qed.

Lemma prefix_self (s : string) : String.prefix s s = true.
Proof.
  induction s as [|c s IH]; cbn; [reflexivity |].
  destruct (Ascii.ascii_dec c c); [exact IH | congruence].
Qed.

Lemma endsWith_includes (s part : string) :
  endsWith s part = true -> includes s part = true.
Proof.
  induction s as [|c s IH]; cbn [endsWith includes].
  - destruct (String.eqb "" part) eqn:E; [| discriminate].
    apply String.eqb_eq in E. subst part. reflexivity.
  - destruct (String.eqb (String c s) part) eqn:E.
    + apply String.eqb_eq in E. subst part. intros _.
      rewrite (prefix_self (String c s)). reflexivity.
    + intros H. rewrite (IH H).
      destruct (String.prefix part (String c s)); reflexivity.
Qed.

Lemma endsWith_append (a s suffix : string) :
  endsWith s suffix = true -> endsWith (a ++ s) suffix = true.
Proof.
  intros H. induction a as [|c a IH]; [exact H |].
  change (String c a ++ s)%string with (String c (a ++ s)%string).
  cbn [endsWith]. rewrite IH.
  destruct (String.eqb (String c (a ++ s)) suffix); reflexivity.
Qed.

Lemma endsWith_self (s : string) : endsWith s s = true.
Proof. destruct s; cbn [endsWith]; rewrite String.eqb_refl; reflexivity. Qed.

(** X24. A file written by the backup is always found again: whatever
    the timestamp put in its name, the name passes the test by which
    the restore picks its candidates and the test by which the list of
    backups is made. *)
Theorem backup_file_is_found (timestamp : string) :
  restore_candidate (backup_file_name timestamp) = true
  /\ listed_backup (backup_file_name timestamp) = true.
Proof.
  assert (Hp : String.prefix "expenses_backup" (backup_file_name timestamp)
               = true) by reflexivity.
  assert (He : endsWith (backup_file_name timestamp) ".json" = true).
  { unfold backup_file_name.
    apply endsWith_append, endsWith_append, endsWith_self. }
  unfold restore_candidate, listed_backup.
  rewrite Hp, He, (prefix_includes _ _ Hp), (endsWith_includes _ _ He).
  split; reflexivity.
Qed.

(** X25. Every file the restore would pick is also shown in the list of
    backups: a name that starts with 'expenses_backup' and ends with
    '.json' contains both. *)
Theorem restore_candidates_are_listed (name : string) :
  restore_candidate name = true -> listed_backup name = true.
Proof.
  unfold restore_candidate, listed_backup. rewrite !andb_true_iff.
  intros [Hp He]. split;
    [apply prefix_includes, Hp | apply endsWith_includes, He].
Qed.

Lemma restore_candidates_are_listed_witness :
  restore_candidate "expenses_backup_old.json" = true
  /\ listed_backup "expenses_backup_old.json" = true.
Proof.
  split; [reflexivity |].
  apply restore_candidates_are_listed. reflexivity.
Defined.

(** The converse fails: the list shows files the restore never picks. *)
Example listed_but_not_restorable :
  listed_backup "my_expenses_backup.json.bak" = true
  /\ restore_candidate "my_expenses_backup.json.bak" = false.
Proof. split; reflexivity. Qed.

(** * Properties of the product list *)

(** X26. When the search text or the category changes, the request
    that [resetAndFetch] schedules is the one of the render that saw
    the change, with the paging of before the reset.  If that render
    showed no request under way and [hasMore], the request carries the
    new query and [skip = page * 20] for the [page] of before the
    reset, although the list has been emptied; answered with a page,
    the list shows that page and [page] is 1.  If that render showed a
    request under way or no [hasMore], nothing is requested: the list
    is left empty. *)
Theorem query_change_keeps_old_paging {Product : Type}
    (old : ProductList.State Product) (selectedCategory searchText : string) :
  let snap := ProductList.setQuery selectedCategory searchText old in
  let r := ProductList.query_effect snap in
  ProductList.products (fst r) = []
  /\ ProductList.page (fst r) = 0%nat
  /\ (ProductList.loading old = false ->
      ProductList.hasMore old = true ->
      snd r = Some (ProductList.endpoint selectedCategory searchText
                      (ProductList.page old * 20))
      /\ forall ps,
           let s := ProductList.fetchProducts_resume
                      (ProductList.Body (Some ps)) (fst r) in
           ProductList.products s = ps
           /\ ProductList.page s = 1%nat
           /\ ProductList.hasMore s = (length ps =? 20)%nat)
  /\ (ProductList.loading old = true \/ ProductList.hasMore old = false ->
      snd r = None
      /\ forall u cur,
           snd (ProductList.fetchProducts_call snap cur) <> Some u).
Proof.
  cbn zeta. unfold ProductList.query_effect, ProductList.fetchProducts_call.
  cbn [ProductList.loading ProductList.hasMore ProductList.setQuery
       ProductList.page ProductList.selectedCategory ProductList.searchText].
  destruct (ProductList.loading old), (ProductList.hasMore old);
    cbn [orb negb fst snd ProductList.products ProductList.page
         ProductList.resetAndFetch];
    (split; [reflexivity |]); (split; [reflexivity |]); split;
    try discriminate; try (intros [H | H]; discriminate H);
    try (intros _; split; [reflexivity | intros u cur; discriminate]).
  intros _ _. split; [reflexivity |]. intros ps. cbn. repeat split.
Qed.

Lemma query_change_keeps_old_paging_witness :
  let old : ProductList.State nat :=
    {| ProductList.products := List.seq 0 40; ProductList.searchText := "";
       ProductList.selectedCategory := ""; ProductList.page := 2;
       ProductList.loading := false; ProductList.hasMore := true |} in
  snd (ProductList.query_effect (ProductList.setQuery "" "phone" old))
  = Some "https://dummyjson.com/products/search?q=phone&limit=20&skip=40".
Proof.
  cbn zeta.
  destruct (query_change_keeps_old_paging
              {| ProductList.products := List.seq 0 40;
                 ProductList.searchText := "";
                 ProductList.selectedCategory := ""; ProductList.page := 2;
                 ProductList.loading := false; ProductList.hasMore := true |}
              "" "phone") as (_ & _ & Hreq & _).
  destruct (Hreq eq_refl eq_refl) as [Hu _]. rewrite Hu. reflexivity.
Defined.
